(** * BlumBot: the session client of [utils/blum.py]

    A shallow embedding of the request / retry / state-transition logic of
    the [BlumBot] class, and the properties of it that the specification
    states.

    Python values are the values [json.loads] produces (numbers are the
    integers), dictionaries are finite maps with string keys.  A coroutine
    of the bot is a function of the world: it appends to the log of what
    the session did (requests, sleeps, log lines), may replace the
    session's default headers and the stored refresh token, and either
    returns a value or raises.  The methods embedded are [get_tasks],
    [play_game], [refresh], [start_game], [claim_game], [claim], [start],
    [friend_balance], [balance], [login] and [register]. *)

From Stdlib Require Import ZArith Lia String Ascii List Bool.
From stdpp Require Import base option strings gmap.

Set Warnings "-register-all".
Local Open Scope string_scope.
Local Open Scope Z_scope.

(** ** Python values *)

Inductive pyval : Type :=
| PNone
| PBool (b : bool)
| PInt (z : Z)
| PStr (s : string)
| PList (l : list pyval)
| PDict (d : gmap string pyval).

(** Truth value of an object, as [if x:], [not x] and [while x:] take it. *)
Definition truthy (v : pyval) : bool :=
  match v with
  | PNone => false
  | PBool b => b
  | PInt z => negb (Z.eqb z 0)
  | PStr s => negb (String.eqb s "")
  | PList l => match l with [] => false | _ => true end
  | PDict d => negb (Nat.eqb (size d) 0)
  end.

(** [v == s] for a string literal [s]: only a string compares equal. *)
Definition eq_str (v : pyval) (s : string) : bool :=
  match v with
  | PStr t => String.eqb t s
  | _ => false
  end.

(** [needle in hay] on strings. *)
Fixpoint starts_with (p s : string) : bool :=
  match p, s with
  | EmptyString, _ => true
  | String a p', String b s' => Ascii.eqb a b && starts_with p' s'
  | String _ _, EmptyString => false
  end.

Fixpoint contains (needle hay : string) : bool :=
  starts_with needle hay ||
  match hay with
  | EmptyString => false
  | String _ hay' => contains needle hay'
  end.

(** ** Exceptions and outcomes *)

Inductive exn : Type :=
| TypeError
| AttributeError
| KeyError
| ValueError
| OverflowError
| ClientError        (* the transport failed: no response *)
| DecodeError        (* [resp.json()] on a body that is not JSON *)
| IdentityError      (* [get_tg_web_data] failed *)
| RefCodeError
| AccountUsedError.

Inductive outcome (A : Type) : Type :=
| Ret (a : A)
| Raise (e : exn).
Arguments Ret {A} a.
Arguments Raise {A} e.

(** ** The wire *)

Inductive method : Type := GET | POST.

Record request : Type := Request {
  meth : method;
  url : string;
  payload : option pyval          (* the [json=] argument *)
}.

Record response : Type := Response {
  status : Z;
  text : string;                  (* [await resp.text()] *)
  json : option pyval             (* [await resp.json()], [None]: it raises *)
}.

Inductive reply : Type :=
| Resp (r : response)
| Refused.

(** ** What a session leaves behind *)

Inductive delay : Type :=
| PlayDelay                       (* random.uniform( *config.DELAYS['PLAY']) *)
| RoundDelay                      (* random.uniform(30, 40) *)
| ErrorPlayDelay                  (* random.uniform( *config.DELAYS['ERROR_PLAY']) *)
| Seconds (n : Z).

Inductive logline : Type :=
| GetTasksResponse (v : pyval)
| UnexpectedTasksFormat (v : pyval)
| CouldntStartPlay (play_passes : Z)
| FinishPlay (points : Z)
| CouldntPlayGame (msg : pyval) (play_passes : Z)
| PlayGameError (e : exn).

Inductive event : Type :=
| Sent (r : request)
| Slept (d : delay)
| Logged (l : logline).

(** The newest event is the head of [events]. *)
Record world : Type := World {
  events : list event;
  headers : gmap string string;   (* self.session.headers *)
  refresh_token : pyval;          (* self.refresh_token *)
  draws : nat                     (* random numbers drawn so far *)
}.

Definition requests_of (evs : list event) : list request :=
  omap (fun e => match e with Sent r => Some r | _ => None end) evs.

Definition M (A : Type) : Type := world -> outcome A * world.

Definition ret {A} (a : A) : M A := fun w => (Ret a, w).
Definition raise {A} (e : exn) : M A := fun w => (Raise e, w).
Definition bind {A B} (k : A -> M B) (m : M A) : M B :=
  fun w => match m w with
           | (Ret a, w') => k a w'
           | (Raise e, w') => (Raise e, w')
           end.
Definition try_except {A} (m : M A) (handler : exn -> M A) : M A :=
  fun w => match m w with
           | (Ret a, w') => (Ret a, w')
           | (Raise e, w') => handler e w'
           end.

#[global] Instance M_ret : MRet M := @ret.
#[global] Instance M_bind : MBind M := @bind.

Definition lift {A} (o : outcome A) : M A := fun w => (o, w).

Definition add_event (e : event) (w : world) : world :=
  World (e :: events w) (headers w) (refresh_token w) (draws w).

Definition sleep (d : delay) : M unit := fun w => (Ret tt, add_event (Slept d) w).
Definition log (l : logline) : M unit := fun w => (Ret tt, add_event (Logged l) w).

(** [self.session.headers[k] = v] and [self.refresh_token = v]. *)
Definition set_header (k v : string) : M unit :=
  fun w => (Ret tt, World (events w) (<[k:=v]> (headers w)) (refresh_token w) (draws w)).
Definition set_refresh_token (v : pyval) : M unit :=
  fun w => (Ret tt, World (events w) (headers w) v (draws w)).
Definition get_refresh_token : M pyval := fun w => (Ret (refresh_token w), w).

(** ** Operations on Python values *)

(** [v.get(k)]: a dictionary answers, any other JSON value has no [get]. *)
Definition py_get (v : pyval) (k : string) : outcome pyval :=
  match v with
  | PDict d => Ret (default PNone (d !! k))
  | _ => Raise AttributeError
  end.


(** [k in v] for a string [k]: key of a dictionary, element of a list,
    substring of a string; the other values are not containers. *)
Definition py_in (k : string) (v : pyval) : outcome bool :=
  match v with
  | PDict d => Ret (bool_decide (is_Some (d !! k)))
  | PList l => Ret (existsb (fun x => eq_str x k) l)
  | PStr s => Ret (contains k s)
  | _ => Raise TypeError
  end.

(** [s + v] for a string literal [s]. *)
Definition str_add (s : string) (v : pyval) : outcome string :=
  match v with
  | PStr t => Ret (s ++ t)%string
  | _ => Raise TypeError
  end.

(** [isinstance(v, bool) and v] *)
Definition is_true (v : pyval) : bool :=
  match v with
  | PBool b => b
  | _ => false
  end.

(** *** True division and [int()]

    [a / b] on integers is the float nearest to the quotient (ties to the
    even significand), [OverflowError] when that is no finite float; [int]
    of a float drops the fraction.  A finite float is [mant * 2 ^ expo]. *)

Record float : Type := Float { mant : Z; expo : Z }.

Definition round_half_even (n d : Z) : Z :=
  let q := n / d in
  let r := n mod d in
  if 2 * r <? d then q
  else if d <? 2 * r then q + 1
  else if Z.even q then q else q + 1.

(** The exponent of the last place of [n / d], for positive [n] and [d]:
    the [e] with [2^52 <= n / d / 2^e < 2^53], and [-1074] below the
    normal range. *)
Definition ulp_exponent (n d : Z) : Z :=
  let k := Z.log2 n - Z.log2 d in
  let k' := if n * 2 ^ Z.max 0 (- k) <? d * 2 ^ Z.max 0 k then k - 1 else k in
  Z.max (k' - 52) (-1074).

Definition truediv_pos (n d : Z) : outcome float :=
  let e := ulp_exponent n d in
  let m := round_half_even (n * 2 ^ Z.max 0 (- e)) (d * 2 ^ Z.max 0 e) in
  if (0 <=? e) && (2 ^ 1024 <=? m * 2 ^ e) then Raise OverflowError
  else Ret (Float m e).

(** [a / b] for integers [a] and [b], [b] positive. *)
Definition truediv (a b : Z) : outcome float :=
  if Z.eqb a 0 then Ret (Float 0 0)
  else match truediv_pos (Z.abs a) b with
       | Ret f => Ret (Float (Z.sgn a * mant f) (expo f))
       | Raise e => Raise e
       end.

Definition int_of_float (f : float) : Z :=
  if 0 <=? expo f then mant f * 2 ^ expo f
  else Z.quot (mant f) (2 ^ (- expo f)).

(** [int(v / 1000)] *)
Definition int_div_1000 (v : pyval) : outcome pyval :=
  match v with
  | PInt z =>
      match truediv z 1000 with
      | Ret f => Ret (PInt (int_of_float f))
      | Raise e => Raise e
      end
  | PBool b =>
      match truediv (if b then 1 else 0) 1000 with
      | Ret f => Ret (PInt (int_of_float f))
      | Raise e => Raise e
      end
  | _ => Raise TypeError
  end.


(** ** The collaborators of a session

    The service answers a request knowing the requests the session sent
    before it (newest first); [draw] is the source of random numbers;
    [get_tg_web_data] is the account's identity payload, or a failure;
    [POINTS] is [config.POINTS]. *)

Record env : Type := Env {
  serve : list request -> request -> reply;
  draw : nat -> Z;
  get_tg_web_data : option string -> outcome string;
  POINTS : Z * Z
}.

Definition tasks_url := "https://game-domain.blum.codes/api/v1/tasks".
Definition refresh_url := "https://gateway.blum.codes/v1/auth/refresh".
Definition game_play_url := "https://game-domain.blum.codes/api/v1/game/play".
Definition game_claim_url := "https://game-domain.blum.codes/api/v1/game/claim".
Definition farming_claim_url := "https://game-domain.blum.codes/api/v1/farming/claim".
Definition farming_start_url := "https://game-domain.blum.codes/api/v1/farming/start".
Definition friends_balance_url := "https://gateway.blum.codes/v1/friends/balance".
Definition auth_url :=
  "https://gateway.blum.codes/v1/auth/provider/PROVIDER_TELEGRAM_MINI_APP".

Inductive ctl : Type :=
| Next (play_passes : Z)          (* back to the loop test *)
| Break.

Inductive run : Type :=
| Done (r : outcome Z) (w : world)
| Running (play_passes : Z) (w : world).

Section BlumBot.

Context (E : env).

(** One request: it is logged whether or not the transport delivers it. *)
Definition send (req : request) : M response :=
  fun w =>
    match serve E (requests_of (events w)) req with
    | Resp r => (Ret r, add_event (Sent req) w)
    | Refused => (Raise ClientError, add_event (Sent req) w)
    end.

Definition session_get (u : string) : M response := send (Request GET u None).
Definition session_post (u : string) (data : option pyval) : M response :=
  send (Request POST u data).

Definition resp_json (resp : response) : M pyval :=
  match json resp with
  | Some v => mret v
  | None => raise DecodeError
  end.

(** [random.randint(a, b)]: an integer of [a..b], [ValueError] when the
    range is empty. *)
Definition randint (range : Z * Z) : M Z :=
  fun w =>
    let '(a, b) := range in
    if b <? a then (Raise ValueError, w)
    else (Ret (a + draw E (draws w) mod (b - a + 1)),
          World (events w) (headers w) (refresh_token w) (S (draws w))).

Definition get_tasks : M pyval :=
  resp ← session_get tasks_url;
  resp_json ← resp_json resp;
  log (GetTasksResponse resp_json);;
  match resp_json with
  | PList _ => mret resp_json
  | _ => log (UnexpectedTasksFormat resp_json);; mret (PList [])
  end.

Definition refresh : M unit :=
  tok ← get_refresh_token;
  let json_data := PDict {[ "refresh" := tok ]} in
  resp ← session_post refresh_url (Some json_data);
  resp_json ← resp_json resp;
  access ← lift (py_get resp_json "access");
  bearer ← lift (str_add "Bearer " access);
  set_header "Authorization" bearer;;
  refresh ← lift (py_get resp_json "refresh");
  set_refresh_token refresh.

Definition start_game : M pyval :=
  resp ← session_post game_play_url None;
  response_data ← resp_json resp;
  has_id ← lift (py_in "gameId" response_data);
  if has_id : bool then lift (py_get response_data "gameId")
  else
    has_message ← lift (py_in "message" response_data);
    if has_message : bool then lift (py_get response_data "message")
    else mret PNone.

Definition claim_game (game_id : pyval) : M (pyval * Z) :=
  points ← randint (POINTS E);
  let json_data := PDict (<[ "gameId" := game_id ]> {[ "points" := PInt points ]}) in
  resp ← session_post game_claim_url (Some json_data);
  resp ← (if negb (Z.eqb (status resp) 200)
          then sleep (Seconds 1);; session_post game_claim_url (Some json_data)
          else mret resp);
  let txt := text resp in
  mret (if String.eqb txt "OK" then PBool true else PStr txt, points).

Definition claim : M (pyval * pyval) :=
  resp ← session_post farming_claim_url None;
  resp ← (if negb (Z.eqb (status resp) 200)
          then sleep (Seconds 1);; session_post farming_claim_url None
          else mret resp);
  resp_json ← resp_json resp;
  timestamp ← lift (py_get resp_json "timestamp");
  seconds ← lift (int_div_1000 timestamp);
  available ← lift (py_get resp_json "availableBalance");
  mret (seconds, available).

Definition start : M unit :=
  resp ← session_post farming_start_url None;
  if negb (Z.eqb (status resp) 200)
  then sleep (Seconds 1);; session_post farming_start_url None;; mret tt
  else mret tt.

Definition friend_balance : M (pyval * pyval) :=
  resp ← session_get friends_balance_url;
  resp_json1 ← resp_json resp;
  sleep (Seconds 1);;
  claim_amount ← lift (py_get resp_json1 "amountForClaim");
  is_available ← lift (py_get resp_json1 "canClaim");
  if negb (Z.eqb (status resp) 200)
  then
    resp ← session_get friends_balance_url;
    resp_json2 ← resp_json resp;
    claim_amount ← lift (py_get resp_json2 "amountForClaim");
    is_available ← lift (py_get resp_json2 "canClaim");
    mret (claim_amount, is_available)
  else mret (claim_amount, is_available).


Definition login : M bool :=
  try_except
    (query ← lift (get_tg_web_data E None);
     let json_data := PDict {[ "query" := PStr query ]} in
     resp ← session_post auth_url (Some json_data);
     resp_json ← resp_json resp;
     token ← lift (py_get resp_json "token");
     access ← lift (py_get token "access");
     bearer ← lift (str_add "Bearer " access);
     set_header "Authorization" bearer;;
     token ← lift (py_get resp_json "token");
     refresh ← lift (py_get token "refresh");
     set_refresh_token refresh;;
     mret true)
    (fun _ => mret false).

Definition register (referral_code username : string) : M bool :=
  query ← lift (get_tg_web_data E (Some referral_code));
  let json_data :=
    PDict (<[ "query" := PStr query ]>
           (<[ "referralToken" := PStr referral_code ]>
            {[ "username" := PStr username ]})) in
  resp ← session_post auth_url (Some json_data);
  resp_json ← resp_json resp;
  if contains "limit" (text resp) then raise RefCodeError
  else if contains "already connected" (text resp) then raise AccountUsedError
  else
    token ← lift (py_get resp_json "token");
    access ← lift (py_get token "access");
    bearer ← lift (str_add "Bearer " access);
    set_header "Authorization" bearer;;
    token ← lift (py_get resp_json "token");
    refresh ← lift (py_get token "refresh");
    set_refresh_token refresh;;
    mret true.

(** The body of the [try] of [play_game], for the current value of
    [play_passes]. *)
Definition play_round (play_passes : Z) : M ctl :=
  sleep PlayDelay;;
  game_id ← start_game;
  if negb (truthy game_id) || eq_str game_id "cannot start game"
  then log (CouldntStartPlay play_passes);; mret Break
  else
    sleep RoundDelay;;
    '(msg, points) ← claim_game game_id;
    if is_true msg
    then
      log (FinishPlay points);;
      sleep RoundDelay;;
      mret (Next (play_passes - 1))
    else log (CouldntPlayGame msg play_passes);; mret Break.

(** One iteration of the [while]: the [try] and its [except Exception]. *)
Definition play_pass (play_passes : Z) : M ctl :=
  try_except (play_round play_passes)
    (fun e => log (PlayGameError e);; sleep ErrorPlayDelay;; mret (Next play_passes)).

(** [play_game]: the loop runs for at most [fuel] iterations.  [Done] is
    the loop left, with the value the local [play_passes] has then;
    [Running] is the loop about to test [play_passes] once more when the
    fuel is spent. *)
Fixpoint play_game (fuel : nat) (play_passes : Z) (w : world) : run :=
  if Z.eqb play_passes 0 then Done (Ret play_passes) w
  else
    match fuel with
    | O => Running play_passes w
    | S fuel' =>
        match play_pass play_passes w with
        | (Ret (Next n), w') => play_game fuel' n w'
        | (Ret Break, w') => Done (Ret play_passes) w'
        | (Raise e, w') => Done (Raise e) w'
        end
    end.

End BlumBot.

(** ** Running a coroutine by hand *)

Ltac unfold_monad :=
  cbv beta iota delta
    [mbind mret M_bind M_ret bind ret raise lift try_except
     sleep log set_header set_refresh_token get_refresh_token
     session_post session_get send resp_json add_event] in *.

(** Case analysis on the innermost scrutinee of the goal. *)
Ltac case_inner :=
  match goal with
  | |- context [match ?x with _ => _ end] =>
      lazymatch x with
      | context [match _ with _ => _ end] => fail
      | _ => destruct x eqn:?; simpl
      end
  end.

(** ** Login *)

Definition login_request (query : string) : request :=
  Request POST auth_url (Some (PDict {[ "query" := PStr query ]})).

(** The identity endpoint grants [access] and [refresh]: the payload was
    obtained, the request was answered, and the body is an object whose
    [token] object holds the string [access]. *)
Definition granted (E : env) (w : world) (access : string) (refresh : pyval) : Prop :=
  exists query r d t,
    get_tg_web_data E None = Ret query /\
    serve E (requests_of (events w)) (login_request query) = Resp r /\
    json r = Some (PDict d) /\
    d !! "token" = Some (PDict t) /\
    t !! "access" = Some (PStr access) /\
    refresh = default PNone (t !! "refresh").

(** ** Reading the log of a session *)

Definition is_start (e : event) : bool :=
  match e with
  | Sent r => String.eqb (url r) game_play_url
  | _ => false
  end.

Definition is_claim (e : event) : bool :=
  match e with
  | Sent r => String.eqb (url r) game_claim_url
  | _ => false
  end.

Definition is_finish (e : event) : bool :=
  match e with
  | Logged (FinishPlay _) => true
  | _ => false
  end.

Definition count (p : event -> bool) (evs : list event) : nat :=
  length (List.filter p evs).

(** The request [play_game] sends to start a game and to claim it. *)
Definition start_request : request := Request POST game_play_url None.
Definition claim_request (game_id : pyval) (points : Z) : request :=
  Request POST game_claim_url
    (Some (PDict (<[ "gameId" := game_id ]> {[ "points" := PInt points ]}))).

(** What [play_game] takes for a game identifier. *)
Definition accepted_id (g : pyval) : bool :=
  truthy g && negb (eq_str g "cannot start game").

(** What the service may answer to [play_game].  A game identifier is a
    non-empty string other than the refusal message. *)
Definition refusal : string := "cannot start game".

Definition valid_start_reply (rep : reply) : Prop :=
  exists r d s,
    rep = Resp r /\ json r = Some (PDict d) /\ d !! "gameId" = Some (PStr s) /\
    s <> "" /\ s <> refusal.

Definition refusing_start_reply (rep : reply) : Prop :=
  exists r d,
    rep = Resp r /\ json r = Some (PDict d) /\ d !! "gameId" = None /\
    d !! "message" = Some (PStr refusal).

Definition ok_claim_reply (rep : reply) : Prop :=
  exists r, rep = Resp r /\ text r = "OK".

(** A service that starts every game and accepts every claim. *)
Definition always_wins (E : env) : Prop :=
  (forall h req, url req = game_play_url -> valid_start_reply (serve E h req)) /\
  (forall h req, url req = game_claim_url -> ok_claim_reply (serve E h req)).

Definition play_requests (h : list request) : nat :=
  length (List.filter (fun r => String.eqb (url r) game_play_url) h).

(** A service that, from the world [w] on, starts the first game, refuses
    the second with the message "cannot start game", and accepts every
    claim. *)
Definition refuses_second_start (E : env) (w : world) : Prop :=
  (forall h req, url req = game_play_url -> play_requests h = 0%nat ->
     valid_start_reply (serve E (h ++ requests_of (events w))%list req)) /\
  (forall h req, url req = game_play_url -> play_requests h = 1%nat ->
     refusing_start_reply (serve E (h ++ requests_of (events w))%list req)) /\
  (forall h req, url req = game_claim_url -> ok_claim_reply (serve E h req)).

(** [config.POINTS] is a range. *)
Definition points_range (E : env) : Prop := fst (POINTS E) <= snd (POINTS E).

(** What [claim_game] answers is read off the last response alone. *)
Definition claim_message (r : response) : pyval :=
  if String.eqb (text r) "OK" then PBool true else PStr (text r).

(** The error path of an iteration: the log line and the backoff. *)
Definition backoff (e : exn) (w : world) : world :=
  add_event (Slept ErrorPlayDelay) (add_event (Logged (PlayGameError e)) w).

(** The ways through one iteration of the loop of [play_game], from the
    world [w] with [n] passes left: the next value of the loop and the world
    it leaves. *)
Inductive pass_result (E : env) (n : Z) (w : world) : ctl -> world -> Prop :=
| pass_finished g w1 msg points w2 :
    start_game E (add_event (Slept PlayDelay) w) = (Ret g, w1) ->
    accepted_id g = true ->
    claim_game E g (add_event (Slept RoundDelay) w1) = (Ret (msg, points), w2) ->
    is_true msg = true ->
    pass_result E n w (Next (n - 1))
      (add_event (Slept RoundDelay) (add_event (Logged (FinishPlay points)) w2))
| pass_not_started g w1 :
    start_game E (add_event (Slept PlayDelay) w) = (Ret g, w1) ->
    accepted_id g = false ->
    pass_result E n w Break (add_event (Logged (CouldntStartPlay n)) w1)
| pass_not_claimed g w1 msg points w2 :
    start_game E (add_event (Slept PlayDelay) w) = (Ret g, w1) ->
    accepted_id g = true ->
    claim_game E g (add_event (Slept RoundDelay) w1) = (Ret (msg, points), w2) ->
    is_true msg = false ->
    pass_result E n w Break (add_event (Logged (CouldntPlayGame msg n)) w2)
| pass_start_failed e w1 :
    start_game E (add_event (Slept PlayDelay) w) = (Raise e, w1) ->
    pass_result E n w (Next n) (backoff e w1)
| pass_claim_failed g w1 e w2 :
    start_game E (add_event (Slept PlayDelay) w) = (Ret g, w1) ->
    accepted_id g = true ->
    claim_game E g (add_event (Slept RoundDelay) w1) = (Raise e, w2) ->
    pass_result E n w (Next n) (backoff e w2).

(** ** Sessions to run

    A session starts with no default header and the empty refresh token of
    [__init__]; the services below are the mocks the properties are tried
    against. *)
Definition fresh : world := World [] ∅ (PStr "") 0.

Definition json_reply (code : Z) (body : pyval) : reply :=
  Resp (Response code "" (Some body)).
Definition text_reply (code : Z) (body : string) : reply :=
  Resp (Response code body None).

(** Starts every game, accepts every claim. *)
Definition winning_service (h : list request) (req : request) : reply :=
  if String.eqb (url req) game_play_url
  then json_reply 200 (PDict {[ "gameId" := PStr "g-1" ]})
  else if String.eqb (url req) game_claim_url
  then text_reply 200 "OK"
  else Refused.

(** Starts the first game only. *)
Definition one_game_service (h : list request) (req : request) : reply :=
  if String.eqb (url req) game_play_url
  then match play_requests h with
       | O => json_reply 200 (PDict {[ "gameId" := PStr "g-1" ]})
       | _ => json_reply 200 (PDict {[ "message" := PStr refusal ]})
       end
  else if String.eqb (url req) game_claim_url
  then text_reply 200 "OK"
  else Refused.

(** Answers a start with another message than the refusal, and knows no
    such game at the claim. *)
Definition busy_service (h : list request) (req : request) : reply :=
  if String.eqb (url req) game_play_url
  then json_reply 200 (PDict {[ "message" := PStr "Too many requests" ]})
  else text_reply 404 "game not found".

Definition mock (service : list request -> request -> reply) : env :=
  Env service (fun _ => 0) (fun _ => Ret "query_id=1") (100, 200).

(** Answers the requests to [u] with [rep], and no other. *)
Definition answering (u : string) (rep : reply) (h : list request) (req : request)
  : reply :=
  if String.eqb (url req) u then rep else Refused.

(** No network. *)
Definition unreachable (h : list request) (req : request) : reply := Refused.

(** A session that logged in before. *)
Definition logged_in : world :=
  World [] {[ "Authorization" := "Bearer old-access" ]} (PStr "old-refresh") 0.

Definition token_body (access refresh : string) : pyval :=
  PDict {[ "token" := PDict (<[ "access" := PStr access ]>
                             {[ "refresh" := PStr refresh ]}) ]}.

(** ** Timestamps

    A millisecond timestamp below [ms_bound] (the year 559444) divides
    exactly; a field of the body is absent when it is missing or null. *)
Definition ms_bound : Z := 1000 * 2 ^ 44.



Definition register_request (query referral_code username : string) : request :=
  Request POST auth_url
    (Some (PDict (<[ "query" := PStr query ]>
                  (<[ "referralToken" := PStr referral_code ]>
                   {[ "username" := PStr username ]})))).



Definition both_errors_reply : reply :=
  Resp (Response 400 "referral limit reached, account already connected"
          (Some (PDict {[ "message" := PStr "referral limit reached, account already connected" ]}))).

Definition limit_reply : reply :=
  Resp (Response 500 "Referral token limit reached"
          (Some (PDict {[ "message" := PStr "Referral token limit reached" ]}))).

Definition bad_gateway : reply := text_reply 502 "<html>502 Bad Gateway</html>".

Definition tasks_request : request := Request GET tasks_url None.
Definition farming_claim_request : request := Request POST farming_claim_url None.
Definition farming_start_request : request := Request POST farming_start_url None.
Definition friends_balance_request : request := Request GET friends_balance_url None.
Definition refresh_request (tok : pyval) : request :=
  Request POST refresh_url (Some (PDict {[ "refresh" := tok ]})).

(** The log after a request that was sent again. *)
Definition retried (req : request) (w : world) : world :=
  World (Sent req :: Slept (Seconds 1) :: Sent req :: events w)
        (headers w) (refresh_token w) (draws w).

(** ** The other rewards

    [claim_daily_reward], [get_referral_code] and [friend_claim]. *)

Definition daily_reward_url :=
  "https://game-domain.blum.codes/api/v1/daily-reward?offset=-180".
Definition friends_claim_url := "https://gateway.blum.codes/v1/friends/claim".

Definition daily_reward_request : request := Request POST daily_reward_url None.
Definition friends_claim_request : request := Request POST friends_claim_url None.

Section Rewards.

Context (E : env).

Definition claim_daily_reward : M pyval :=
  resp ← session_post E daily_reward_url None;
  let txt := text resp in
  sleep (Seconds 1);;
  mret (if String.eqb txt "OK" then PBool true else PStr txt).

Definition get_referral_code : M pyval :=
  resp ← session_get E friends_balance_url;
  resp_json1 ← resp_json resp;
  referralToken ← lift (py_get resp_json1 "referralToken");
  if negb (Z.eqb (status resp) 200)
  then
    sleep (Seconds 1);;
    resp ← session_get E friends_balance_url;
    resp_json2 ← resp_json resp;
    referralToken ← lift (py_get resp_json2 "referralToken");
    mret referralToken
  else mret referralToken.

Definition friend_claim : M pyval :=
  resp ← session_post E friends_claim_url None;
  resp_json1 ← resp_json resp;
  amount ← lift (py_get resp_json1 "claimBalance");
  if negb (Z.eqb (status resp) 200)
  then
    sleep (Seconds 1);;
    resp ← session_post E friends_claim_url None;
    resp_json2 ← resp_json resp;
    amount ← lift (py_get resp_json2 "claimBalance");
    mret amount
  else mret amount.

End Rewards.

(** ** More on the log *)

Definition is_error (e : event) : bool :=
  match e with
  | Logged (PlayGameError _) => true
  | _ => false
  end.

(** Between [w] and [w'] the session sent [req], once or twice, and nothing
    else, and kept its credentials. *)
Definition sent_once_or_twice (req : request) (w w' : world) : Prop :=
  exists new,
    events w' = (new ++ events w)%list /\
    (requests_of new = [req] \/ requests_of new = [req; req]) /\
    headers w' = headers w /\ refresh_token w' = refresh_token w.

(** The line of the log an iteration of [play_game] ends the loop with. *)
Definition is_break (e : event) : bool :=
  match e with
  | Logged (CouldntStartPlay _) => true
  | Logged (CouldntPlayGame _ _) => true
  | _ => false
  end.

(** More mocks: the first request to [u] is answered with [first], the
    later ones with [later]. *)
Definition flaky (u : string) (first later : reply) (h : list request) (req : request)
  : reply :=
  if String.eqb (url req) u
  then match h with [] => first | _ => later end
  else Refused.

(** Starts every game and knows none of them at the claim. *)
Definition forgetful_service (h : list request) (req : request) : reply :=
  if String.eqb (url req) game_play_url
  then json_reply 200 (PDict {[ "gameId" := PStr "g-1" ]})
  else if String.eqb (url req) game_claim_url
  then text_reply 200 "game session not found"
  else Refused.

(** The winning service under a configuration whose range of points is
    empty. *)
Definition misconfigured : env :=
  Env winning_service (fun _ => 0) (fun _ => Ret "query_id=1") (200, 100).

(** Closes a goal [sent_once_or_twice], unfolded, on a run that is computed. *)
Ltac close_budget :=
  simpl;
  first
    [ eexists [_]; split; [reflexivity|]; simpl; repeat split; auto; fail
    | eexists [_; _]; split; [reflexivity|]; simpl; repeat split; auto; fail
    | eexists [_; _; _]; split; [reflexivity|]; simpl; repeat split; auto; fail
    | eexists [_; _; _; _]; split; [reflexivity|]; simpl; repeat split; auto ].

(** Answers a start with another message than the refusal, and accepts the
    claim of a game of that name. *)
Definition lenient_service (h : list request) (req : request) : reply :=
  if String.eqb (url req) game_play_url
  then json_reply 200 (PDict {[ "message" := PStr "Too many requests" ]})
  else text_reply 200 "OK".






(** * Properties *)

Lemma granted_inv (E : env) (w : world) access refresh query r body :
  granted E w access refresh ->
  get_tg_web_data E None = Ret query ->
  serve E (requests_of (events w)) (login_request query) = Resp r ->
  json r = Some body ->
  exists d t, body = PDict d /\ d !! "token" = Some (PDict t) /\
              t !! "access" = Some (PStr access) /\
              refresh = default PNone (t !! "refresh").
Proof.
  intros (q & r' & d & t & H1 & H2 & H3 & H4 & H5 & H6) Hq Hs Hj.
  assert (q = query) by congruence. subst q.
  assert (r' = r) by congruence. subst r'.
  exists d, t. repeat split; auto. congruence.
Qed.

Lemma login_cases (E : env) (w : world) :
  (exists access refresh evs,
      granted E w access refresh /\
      login E w = (Ret true,
                   World evs (<["Authorization" := "Bearer " ++ access]> (headers w))
                         refresh (draws w)))
  \/ ((forall access refresh, ~ granted E w access refresh) /\
      exists evs, login E w = (Ret false, World evs (headers w) (refresh_token w) (draws w))).
Proof.
  unfold login. unfold_monad. fold (login_request).
  destruct (get_tg_web_data E None) as [query|e] eqn:Hq.
  2:{ right. split; [|destruct w; simpl; eauto].
      intros a rf (q & r & d & t & H & _). congruence. }
  change (Request POST auth_url (Some (PDict {[ "query" := PStr query ]})))
    with (login_request query).
  destruct (serve E _ _) as [r|] eqn:Hs.
  2:{ right. split; [|simpl; eauto].
      intros a rf (q & r & d & t & H1 & H2 & _).
      assert (q = query) by congruence. subst. congruence. }
  destruct (json r) as [body|] eqn:Hj.
  2:{ right. split; [|simpl; eauto].
      intros a rf (q & r' & d & t & H1 & H2 & H3 & _).
      assert (q = query) by congruence. subst.
      assert (r' = r) by congruence. subst. congruence. }
  assert (Hinv := fun a rf G => granted_inv E w a rf query r body G Hq Hs Hj).
  destruct body as [ | | | | |d];
    try (right; split; [|simpl; eauto];
         intros a rf G; destruct (Hinv a rf G) as (d' & t' & ? & _); discriminate).
  simpl.
  destruct (d !! "token") as [tok|] eqn:Ht; simpl.
  2:{ right. split; [|eauto].
      intros a rf G; destruct (Hinv a rf G) as (d' & t' & ? & ? & _). congruence. }
  destruct tok as [ | | | | |t];
    try (right; split; [|simpl; eauto];
         intros a rf G; destruct (Hinv a rf G) as (d' & t' & ? & ? & _); congruence).
  simpl.
  destruct (t !! "access") as [acc|] eqn:Ha; simpl.
  2:{ right. split; [|eauto].
      intros a rf G; destruct (Hinv a rf G) as (d' & t' & ? & ? & ? & _).
      assert (d' = d) by congruence. subst.
      assert (t' = t) by congruence. subst. congruence. }
  destruct acc as [ | | |access| | ];
    try (right; split; [|simpl; eauto];
         intros a rf G; destruct (Hinv a rf G) as (d' & t' & ? & ? & ? & _);
         assert (d' = d) by congruence; subst;
         assert (t' = t) by congruence; subst; congruence).
  simpl. left. exists access, (default PNone (t !! "refresh")). eexists.
  split; [|reflexivity].
  exists query, r, d, t. repeat split; assumption || reflexivity.
Qed.

Lemma granted_functional (E : env) (w : world) a1 r1 a2 r2 :
  granted E w a1 r1 -> granted E w a2 r2 -> a1 = a2 /\ r1 = r2.
Proof.
  intros (q & r & d & t & H1 & H2 & H3 & H4 & H5 & H6) G.
  destruct (granted_inv E w a2 r2 q r (PDict d) G H1 H2 H3)
    as (d' & t' & [= <-] & Ht & Ha & Hr).
  rewrite H4 in Ht. injection Ht as <-.
  rewrite H5 in Ha. injection Ha as <-.
  split; congruence.
Qed.

(** C7: login never raises.  It returns True exactly when the identity
    endpoint grants a token, and then the session's default header
    Authorization is "Bearer " + access and the refresh token of the answer
    is stored; it returns False on every failure: no identity payload, no
    answer from the network, a body that is not JSON, no token field, no
    access field in it. *)
Theorem login_true_or_false (E : env) (w : world) :
  (exists b w', login E w = (Ret b, w')) /\
  (forall access refresh,
     granted E w access refresh ->
     exists evs,
       login E w =
       (Ret true,
        World evs (<["Authorization" := "Bearer " ++ access]> (headers w))
              refresh (draws w))) /\
  ((forall access refresh, ~ granted E w access refresh) ->
   exists w', login E w = (Ret false, w')) /\
  (forall e, get_tg_web_data E None = Raise e ->
             exists w', login E w = (Ret false, w')) /\
  (forall query,
     get_tg_web_data E None = Ret query ->
     serve E (requests_of (events w)) (login_request query) = Refused ->
     exists w', login E w = (Ret false, w')) /\
  (forall query r,
     get_tg_web_data E None = Ret query ->
     serve E (requests_of (events w)) (login_request query) = Resp r ->
     json r = None ->
     exists w', login E w = (Ret false, w')) /\
  (forall query r d,
     get_tg_web_data E None = Ret query ->
     serve E (requests_of (events w)) (login_request query) = Resp r ->
     json r = Some (PDict d) ->
     d !! "token" = None \/
     (exists t, d !! "token" = Some (PDict t) /\ t !! "access" = None) ->
     exists w', login E w = (Ret false, w')).
Proof.
  assert (Hfalse : (forall access refresh, ~ granted E w access refresh) ->
                   exists w', login E w = (Ret false, w')).
  { intros Hno. destruct (login_cases E w) as [(a & rf & evs & G & _)|[_ [evs H]]].
    - destruct (Hno a rf G).
    - eauto. }
  split; [|split; [|split; [exact Hfalse|]]].
  - destruct (login_cases E w) as [(a & rf & evs & _ & H)|[_ [evs H]]]; eauto.
  - intros access refresh G.
    destruct (login_cases E w) as [(a & rf & evs & G' & H)|[Hno _]].
    + destruct (granted_functional E w access refresh a rf G G') as [-> ->]. eauto.
    + destruct (Hno access refresh G).
  - repeat split.
    + intros e He. apply Hfalse.
      intros a rf (q & r & d & t & H1 & _). congruence.
    + intros query Hq Hs. apply Hfalse.
      intros a rf (q & r & d & t & H1 & H2 & _).
      assert (q = query) by congruence. subst. congruence.
    + intros query r Hq Hs Hj. apply Hfalse.
      intros a rf G.
      assert (exists body, json r = Some body) as [body Hb].
      { destruct G as (q & r' & d & t & H1 & H2 & H3 & _).
        assert (q = query) by congruence. subst.
        assert (r' = r) by congruence. subst. eauto. }
      congruence.
    + intros query r d Hq Hs Hj Hmiss. apply Hfalse.
      intros a rf G.
      destruct (granted_inv E w a rf query r (PDict d) G Hq Hs Hj)
        as (d' & t' & [= <-] & Ht & Ha & _).
      destruct Hmiss as [Hnone|(t & Ht' & Hnone)]; [congruence|].
      rewrite Ht in Ht'. injection Ht' as <-. congruence.
Qed.

Lemma login_true_or_false_witness :
  exists evs,
    login (mock (answering auth_url (json_reply 200 (token_body "A1" "R1")))) fresh =
    (Ret true, World evs {[ "Authorization" := "Bearer A1" ]} (PStr "R1") 0).
Proof.
  destruct (login_true_or_false
              (mock (answering auth_url (json_reply 200 (token_body "A1" "R1"))))
              fresh) as (_ & H & _).
  apply (H "A1" (PStr "R1")).
  exists "query_id=1", (Response 200 "" (Some (token_body "A1" "R1"))),
    {[ "token" := PDict (<[ "access" := PStr "A1" ]> {[ "refresh" := PStr "R1" ]}) ]},
    (<[ "access" := PStr "A1" ]> {[ "refresh" := PStr "R1" ]}).
  repeat split; reflexivity.
Defined.

(** C9: a login that fails leaves the session's default headers, so the
    header Authorization, and the stored refresh token as they were. *)
Theorem failed_login_keeps_tokens (E : env) (w w' : world) :
  login E w = (Ret false, w') ->
  headers w' = headers w /\ refresh_token w' = refresh_token w.
Proof.
  intros H.
  destruct (login_cases E w) as [(a & rf & evs & _ & H')|[_ [evs H']]];
    rewrite H' in H; [discriminate|].
  injection H as <-. split; reflexivity.
Qed.

Lemma failed_login_keeps_tokens_witness :
  headers (World [Sent (login_request "query_id=1")]
                 {[ "Authorization" := "Bearer old-access" ]}
                 (PStr "old-refresh") 0) = headers logged_in /\
  refresh_token (World [Sent (login_request "query_id=1")]
                       {[ "Authorization" := "Bearer old-access" ]}
                       (PStr "old-refresh") 0) = refresh_token logged_in.
Proof.
  apply (failed_login_keeps_tokens (mock unreachable) logged_in). reflexivity.
Defined.

(** ** One game round *)

Lemma start_game_world (E : env) (w : world) :
  exists o, start_game E w =
            (o, World (Sent start_request :: events w) (headers w)
                      (refresh_token w) (draws w)).
Proof.
  unfold start_game, start_request. unfold_monad.
  repeat case_inner; eauto.
Qed.

Lemma claim_game_world (E : env) (g : pyval) (w : world) :
  exists o new,
    claim_game E g w = (o, World (new ++ events w) (headers w) (refresh_token w)
                                 (match o with
                                  | Raise ValueError => draws w
                                  | _ => S (draws w)
                                  end)) /\
    count is_finish new = 0%nat /\ count is_start new = 0%nat /\
    (forall msg p, o = Ret (msg, p) ->
       exists evs r,
         (new ++ events w)%list = Sent (claim_request g p) :: evs /\
         serve E (requests_of evs) (claim_request g p) = Resp r /\
         msg = claim_message r).
Proof.
  unfold claim_game, randint, claim_request, claim_message. unfold_monad.
  destruct (POINTS E) as [lo hi].
  destruct (hi <? lo).
  { exists (Raise ValueError), []. destruct w; simpl. repeat split; auto.
    intros; discriminate. }
  simpl.
  set (p := lo + draw E (draws w) mod (hi - lo + 1)).
  set (req := Request POST game_claim_url _).
  destruct (serve E (requests_of (events w)) req) as [r1|] eqn:H1.
  2:{ exists (Raise ClientError), [Sent req]. simpl. repeat split; auto.
      intros; discriminate. }
  destruct (negb (status r1 =? 200)); simpl.
  - destruct (serve E (req :: requests_of (events w)) req) as [r2|] eqn:H2.
    + eexists (Ret (_, p)), [Sent req; Slept (Seconds 1); Sent req]. simpl.
      repeat split; auto.
      intros msg p' [= <- <-]. eexists _, r2. repeat split; eauto.
    + exists (Raise ClientError), [Sent req; Slept (Seconds 1); Sent req]. simpl.
      repeat split; auto. intros; discriminate.
  - eexists (Ret (_, p)), [Sent req]. simpl. repeat split; auto.
    intros msg p' [= <- <-]. eexists _, r1. repeat split; eauto.
Qed.

Lemma play_pass_result (E : env) (n : Z) (w : world) :
  exists c w', play_pass E n w = (Ret c, w') /\ pass_result E n w c w'.
Proof.
  unfold play_pass, play_round.
  cbv beta iota delta [try_except mbind mret M_bind M_ret bind ret sleep log].
  fold (add_event (Slept PlayDelay) w).
  destruct (start_game E (add_event (Slept PlayDelay) w)) as [[g|e] w1] eqn:Hs.
  2:{ eexists _, _. split; [reflexivity|]. eapply pass_start_failed; eauto. }
  destruct (negb (truthy g) || eq_str g "cannot start game") eqn:Hg.
  { eexists _, _. split; [reflexivity|]. eapply pass_not_started; eauto.
    unfold accepted_id. destruct (truthy g), (eq_str g _); auto; discriminate. }
  assert (accepted_id g = true) as Hacc.
  { unfold accepted_id. destruct (truthy g), (eq_str g _); auto; discriminate. }
  fold (add_event (Slept RoundDelay) w1).
  destruct (claim_game E g (add_event (Slept RoundDelay) w1))
    as [[[msg points]|e] w2] eqn:Hc.
  2:{ eexists _, _. split; [reflexivity|]. eapply pass_claim_failed; eauto. }
  destruct (is_true msg) eqn:Hm; eexists _, _; (split; [reflexivity|]).
  - eapply pass_finished; eauto.
  - eapply pass_not_claimed; eauto.
Qed.

(** ** Counting in the log *)

Lemma count_app (p : event -> bool) (l1 l2 : list event) :
  count p (l1 ++ l2) = (count p l1 + count p l2)%nat.
Proof. unfold count. rewrite List.filter_app, length_app. reflexivity. Qed.

Lemma count_cons (p : event -> bool) (e : event) (l : list event) :
  count p (e :: l) = ((if p e then 1 else 0) + count p l)%nat.
Proof. unfold count. simpl. destruct (p e); reflexivity. Qed.

Lemma requests_of_app (l1 l2 : list event) :
  requests_of (l1 ++ l2) = (requests_of l1 ++ requests_of l2)%list.
Proof. unfold requests_of. apply omap_app. Qed.

Lemma play_requests_requests_of (evs : list event) :
  play_requests (requests_of evs) = count is_start evs.
Proof.
  unfold play_requests, count, requests_of.
  induction evs as [|[r|d|l] evs IH]; simpl; auto.
  destruct (String.eqb (url r) game_play_url); simpl; auto.
Qed.

(** ** The loop against a given service *)

Lemma start_game_id (E : env) (w : world) r d g :
  serve E (requests_of (events w)) start_request = Resp r ->
  json r = Some (PDict d) ->
  d !! "gameId" = Some g ->
  start_game E w =
  (Ret g, World (Sent start_request :: events w) (headers w) (refresh_token w) (draws w)).
Proof.
  intros Hs Hj Hg. unfold start_game. unfold_monad.
  fold start_request. rewrite Hs, Hj. simpl. rewrite Hg. simpl. reflexivity.
Qed.

Lemma start_game_message (E : env) (w : world) r d m :
  serve E (requests_of (events w)) start_request = Resp r ->
  json r = Some (PDict d) ->
  d !! "gameId" = None ->
  d !! "message" = Some m ->
  start_game E w =
  (Ret m, World (Sent start_request :: events w) (headers w) (refresh_token w) (draws w)).
Proof.
  intros Hs Hj Hg Hm. unfold start_game. unfold_monad.
  fold start_request. rewrite Hs, Hj. simpl. rewrite Hg. simpl.
  rewrite Hm. simpl. reflexivity.
Qed.

Lemma accepted_id_valid (s : string) :
  s <> "" -> s <> refusal -> accepted_id (PStr s) = true.
Proof.
  intros H1 H2. unfold accepted_id. simpl.
  apply String.eqb_neq in H1, H2. unfold refusal in H2. rewrite H1, H2. reflexivity.
Qed.

Lemma claim_game_ok (E : env) (g : pyval) (w : world) :
  (forall h req, url req = game_claim_url -> ok_claim_reply (serve E h req)) ->
  points_range E ->
  exists p new,
    claim_game E g w =
    (Ret (PBool true, p),
     World (new ++ events w) (headers w) (refresh_token w) (S (draws w))) /\
    count is_finish new = 0%nat /\ count is_start new = 0%nat /\
    (1 <= count is_claim new <= 2)%nat.
Proof.
  intros Hok Hrange. unfold points_range in Hrange.
  unfold claim_game, randint. unfold_monad.
  destruct (POINTS E) as [lo hi]. simpl in Hrange.
  destruct (hi <? lo) eqn:Hlt; [apply Z.ltb_lt in Hlt; lia|].
  simpl.
  set (p := lo + draw E (draws w) mod (hi - lo + 1)).
  set (req := Request POST game_claim_url _).
  destruct (Hok (requests_of (events w)) req eq_refl) as (r1 & H1 & T1).
  rewrite H1.
  destruct (negb (status r1 =? 200)); simpl.
  - destruct (Hok (req :: requests_of (events w)) req eq_refl) as (r2 & H2 & T2).
    rewrite H2, T2. simpl.
    exists p, [Sent req; Slept (Seconds 1); Sent req].
    repeat split; auto; subst req; unfold count; simpl; lia.
  - rewrite T1. simpl. exists p, [Sent req].
    repeat split; auto; subst req; unfold count; simpl; lia.
Qed.

(** Against a service that starts and accepts, an iteration consumes a
    pass. *)
Lemma play_pass_wins (E : env) (n : Z) (w : world) r d s :
  serve E (requests_of (events w)) start_request = Resp r ->
  json r = Some (PDict d) ->
  d !! "gameId" = Some (PStr s) -> s <> "" -> s <> refusal ->
  (forall h req, url req = game_claim_url -> ok_claim_reply (serve E h req)) ->
  points_range E ->
  exists new,
    play_pass E n w =
    (Ret (Next (n - 1)),
     World (new ++ events w) (headers w) (refresh_token w) (S (draws w))) /\
    count is_start new = 1%nat /\ count is_finish new = 1%nat /\
    (1 <= count is_claim new <= 2)%nat.
Proof.
  intros Hs Hj Hg Hne Href Hok Hrange.
  unfold play_pass, play_round.
  cbv beta iota delta [try_except mbind mret M_bind M_ret bind ret sleep log].
  rewrite (start_game_id E (add_event (Slept PlayDelay) w) r d (PStr s)); auto.
  pose proof (accepted_id_valid s Hne Href) as Hacc. unfold accepted_id in Hacc.
  apply andb_true_iff in Hacc as [Ht Hq]. rewrite Ht.
  apply negb_true_iff in Hq. rewrite Hq. cbv beta iota delta [negb orb].
  match goal with
  | |- context [claim_game E ?g ?w0] =>
      destruct (claim_game_ok E g w0 Hok Hrange) as (p & new & Hc & Hf & Hst & Hcl)
  end.
  rewrite Hc. simpl.
  exists (Slept RoundDelay :: Logged (FinishPlay p) :: new ++
          [Slept RoundDelay; Sent start_request; Slept PlayDelay]).
  repeat split; simpl;
    rewrite ?count_cons, ?count_app, ?Hst, ?Hf, <- ?app_assoc;
    unfold count in *; simpl; auto; lia.
Qed.

Lemma play_game_wins (E : env) :
  always_wins E -> points_range E ->
  forall (k : nat) (fuel : nat) (w : world),
    (k <= fuel)%nat ->
    exists new,
      play_game E fuel (Z.of_nat k) w =
      Done (Ret 0)
           (World (new ++ events w) (headers w) (refresh_token w) (k + draws w)) /\
      count is_start new = k /\ count is_finish new = k /\
      (k <= count is_claim new <= 2 * k)%nat.
Proof.
  intros [Hstart Hok] Hrange.
  induction k as [|k IH]; intros fuel w Hfuel.
  - exists []. destruct fuel; destruct w; simpl; repeat split; auto.
  - destruct fuel as [|fuel]; [lia|].
    cbn [play_game].
    destruct (Z.of_nat (S k) =? 0) eqn:Hz; [apply Z.eqb_eq in Hz; lia|].
    destruct (Hstart (requests_of (events w)) start_request eq_refl)
      as (r & d & s & Hs & Hj & Hg & Hne & Href).
    destruct (play_pass_wins E (Z.of_nat (S k)) w r d s Hs Hj Hg Hne Href Hok Hrange)
      as (new1 & Hp & C1 & C2 & C3).
    rewrite Hp.
    replace (Z.of_nat (S k) - 1) with (Z.of_nat k) by lia.
    destruct (IH fuel (World (new1 ++ events w) (headers w) (refresh_token w)
                             (S (draws w)))) as (new & Hrun & D1 & D2 & D3); [lia|].
    exists (new ++ new1)%list. simpl in Hrun. rewrite Hrun.
    repeat split; rewrite ?count_app; try lia.
    rewrite <- app_assoc. do 2 f_equal. lia.
Qed.

(** A negative counter only moves away from zero. *)
Lemma play_game_negative (E : env) (fuel : nat) :
  forall (n : Z) (w : world),
    n < 0 ->
    (exists r w', play_game E fuel n w = Done (Ret r) w' /\ r < 0) \/
    (exists r w', play_game E fuel n w = Running r w' /\ r < 0).
Proof.
  induction fuel as [|fuel IH]; intros n w Hn; simpl.
  - destruct (n =? 0) eqn:Hz; [apply Z.eqb_eq in Hz; lia|]. right. eauto.
  - destruct (n =? 0) eqn:Hz; [apply Z.eqb_eq in Hz; lia|].
    destruct (play_pass_result E n w) as (c & w1 & Hp & Hr). rewrite Hp.
    destruct Hr; try (apply IH; lia); left; eauto.
Qed.

Lemma play_game_negative_runs (E : env) :
  always_wins E -> points_range E ->
  forall (fuel : nat) (n : Z) (w : world),
    n < 0 ->
    exists w', play_game E fuel n w = Running (n - Z.of_nat fuel) w'.
Proof.
  intros [Hstart Hok] Hrange.
  induction fuel as [|fuel IH]; intros n w Hn.
  - simpl. destruct (n =? 0) eqn:Hz; [apply Z.eqb_eq in Hz; lia|].
    exists w. f_equal. lia.
  - cbn [play_game].
    destruct (n =? 0) eqn:Hz; [apply Z.eqb_eq in Hz; lia|].
    destruct (Hstart (requests_of (events w)) start_request eq_refl)
      as (r & d & s & Hs & Hj & Hg & Hne & Href).
    destruct (play_pass_wins E n w r d s Hs Hj Hg Hne Href Hok Hrange)
      as (new1 & Hp & _).
    rewrite Hp.
    destruct (IH (n - 1) (World (new1 ++ events w) (headers w) (refresh_token w)
                                (S (draws w)))) as (w' & Hrun); [lia|].
    exists w'. rewrite Hrun. f_equal. lia.
Qed.

Lemma play_pass_refused (E : env) (n : Z) (w : world) r d m :
  serve E (requests_of (events w)) start_request = Resp r ->
  json r = Some (PDict d) ->
  d !! "gameId" = None ->
  d !! "message" = Some m ->
  accepted_id m = false ->
  play_pass E n w =
  (Ret Break,
   World (Logged (CouldntStartPlay n) :: Sent start_request :: Slept PlayDelay :: events w)
         (headers w) (refresh_token w) (draws w)).
Proof.
  intros Hs Hj Hg Hm Hacc.
  unfold play_pass, play_round.
  cbv beta iota delta [try_except mbind mret M_bind M_ret bind ret sleep log].
  rewrite (start_game_message E (add_event (Slept PlayDelay) w) r d m); auto.
  unfold accepted_id in Hacc.
  replace (negb (truthy m) || eq_str m "cannot start game") with true
    by (destruct (truthy m), (eq_str m _); auto; discriminate).
  reflexivity.
Qed.

Lemma play_round_raises (E : env) (n : Z) (w : world) e w1 :
  play_round E n w = (Raise e, w1) <->
  start_game E (add_event (Slept PlayDelay) w) = (Raise e, w1) \/
  exists g w0,
    start_game E (add_event (Slept PlayDelay) w) = (Ret g, w0) /\
    accepted_id g = true /\
    claim_game E g (add_event (Slept RoundDelay) w0) = (Raise e, w1).
Proof.
  unfold play_round, accepted_id.
  cbv beta iota delta [mbind mret M_bind M_ret bind ret sleep log].
  fold (add_event (Slept PlayDelay) w).
  destruct (start_game E (add_event (Slept PlayDelay) w)) as [[g|e0] w0].
  2:{ split; [intros [= -> ->]; auto|].
      intros [[= -> ->]|(g & w0' & [=] & _)]; reflexivity. }
  destruct (negb (truthy g) || eq_str g "cannot start game") eqn:Hg.
  { split; [discriminate|].
    intros [[=]|(g' & w0' & [= <- <-] & Hacc & _)].
    destruct (truthy g), (eq_str g _); discriminate. }
  fold (add_event (Slept RoundDelay) w0).
  destruct (claim_game E g (add_event (Slept RoundDelay) w0))
    as [[[msg points]|e1] w2] eqn:Hc.
  - split.
    + destruct (is_true msg); discriminate.
    + intros [[=]|(g' & w0' & [= <- <-] & _ & Hc')].
      rewrite Hc in Hc'. discriminate.
  - split.
    + intros [= -> ->]. right. exists g, w0. repeat split; auto.
      destruct (truthy g), (eq_str g _); auto; discriminate.
    + intros [[=]|(g' & w0' & [= <- <-] & _ & Hc')].
      rewrite Hc in Hc'. injection Hc' as -> ->. reflexivity.
Qed.

(** ** The iterations of a run *)

Lemma claim_game_log (E : env) (g : pyval) (w : world) o w' :
  claim_game E g w = (o, w') ->
  exists new,
    events w' = (new ++ events w)%list /\
    headers w' = headers w /\ refresh_token w' = refresh_token w /\
    count is_start new = 0%nat /\ count is_finish new = 0%nat /\
    count is_error new = 0%nat /\ count is_break new = 0%nat /\
    (count is_claim new <= 2)%nat /\
    length (requests_of new) = count is_claim new /\
    (forall x, o = Ret x -> (1 <= count is_claim new)%nat).
Proof.
  unfold claim_game, randint. unfold_monad.
  destruct (POINTS E) as [lo hi].
  destruct (hi <? lo).
  { intros [= <- <-]. exists []. unfold count. simpl.
    repeat split; auto; try (intros; discriminate). }
  simpl.
  set (req := Request POST game_claim_url _).
  destruct (serve E (requests_of (events w)) req) as [r1|].
  2:{ intros [= <- <-]. exists [Sent req]. unfold count. simpl.
      repeat split; auto; try (intros; discriminate). }
  destruct (negb (status r1 =? 200)); simpl.
  - destruct (serve E (req :: requests_of (events w)) req) as [r2|];
      intros [= <- <-]; exists [Sent req; Slept (Seconds 1); Sent req];
      unfold count; simpl; repeat split; auto; try (intros; discriminate).
  - intros [= <- <-]. exists [Sent req]. unfold count. simpl.
    repeat split; auto; try (intros; discriminate).
Qed.

(** What one iteration adds to the log: one start, at most two claims, and
    exactly one of the lines that end it: the finished round, which takes a
    pass, the error, which takes none, or the stop, which leaves the loop. *)
Lemma pass_result_counts (E : env) (n : Z) (w : world) (c : ctl) (w' : world) :
  pass_result E n w c w' ->
  exists new,
    events w' = (new ++ events w)%list /\
    headers w' = headers w /\ refresh_token w' = refresh_token w /\
    count is_start new = 1%nat /\
    (count is_claim new <= 2)%nat /\
    (count is_finish new <= count is_claim new)%nat /\
    length (requests_of new) = (1 + count is_claim new)%nat /\
    match c with
    | Next m =>
        count is_break new = 0%nat /\
        ((m = n - 1 /\ count is_finish new = 1%nat /\ count is_error new = 0%nat) \/
         (m = n /\ count is_finish new = 0%nat /\ count is_error new = 1%nat))
    | Break =>
        count is_break new = 1%nat /\ count is_finish new = 0%nat /\
        count is_error new = 0%nat
    end.
Proof.
  intros H.
  destruct H as [g w1 msg points w2 Hs Hg Hc Hm | g w1 Hs Hg
                | g w1 msg points w2 Hs Hg Hc Hm | e w1 Hs | g w1 e w2 Hs Hg Hc];
    destruct (start_game_world E (add_event (Slept PlayDelay) w)) as [o Ho];
    rewrite Ho in Hs; injection Hs as ? ?; subst;
    try (destruct (claim_game_log E g _ _ _ Hc)
           as (new & Hw & Hh & Htok & Hst & Hf & Her & Hbr & Hcl & Hlen & Hret);
         simpl in Hw, Hh, Htok; simpl; rewrite ?Hw, ?Hh, ?Htok).
  - exists (Slept RoundDelay :: Logged (FinishPlay points) :: new ++
            [Slept RoundDelay; Sent start_request; Slept PlayDelay]).
    specialize (Hret _ eq_refl).
    repeat split; simpl;
      rewrite ?count_cons, ?count_app, ?requests_of_app, ?length_app, ?Hst, ?Hf,
        ?Her, ?Hbr, ?Hlen, <- ?app_assoc; unfold count in *; simpl; auto; try lia;
      solve [ left; repeat split; simpl; auto; lia
            | right; repeat split; simpl; auto; lia ].
  - exists [Logged (CouldntStartPlay n); Sent start_request; Slept PlayDelay].
    unfold count. simpl. repeat split; auto.
  - exists (Logged (CouldntPlayGame msg n) :: new ++
            [Slept RoundDelay; Sent start_request; Slept PlayDelay]).
    repeat split; simpl;
      rewrite ?count_cons, ?count_app, ?requests_of_app, ?length_app, ?Hst, ?Hf,
        ?Her, ?Hbr, ?Hlen, <- ?app_assoc; unfold count in *; simpl; auto; lia.
  - exists [Slept ErrorPlayDelay; Logged (PlayGameError e);
            Sent start_request; Slept PlayDelay].
    unfold count. simpl. repeat split; auto.
  - exists (Slept ErrorPlayDelay :: Logged (PlayGameError e) :: new ++
            [Slept RoundDelay; Sent start_request; Slept PlayDelay]).
    repeat split; simpl;
      rewrite ?count_cons, ?count_app, ?requests_of_app, ?length_app, ?Hst, ?Hf,
        ?Her, ?Hbr, ?Hlen, <- ?app_assoc; unfold count in *; simpl; auto; try lia;
      solve [ left; repeat split; simpl; auto; lia
            | right; repeat split; simpl; auto; lia ].
Qed.

(** A run is its iterations: while it is running there were as many as the
    fuel, and it is left either with the counter at zero or at a stop. *)
Lemma play_game_iterations (E : env) (fuel : nat) :
  forall (n : Z) (w : world),
    exists r w' new,
      events w' = (new ++ events w)%list /\
      headers w' = headers w /\ refresh_token w' = refresh_token w /\
      r = n - Z.of_nat (count is_finish new) /\
      count is_start new =
        (count is_finish new + count is_error new + count is_break new)%nat /\
      (count is_claim new <= 2 * count is_start new)%nat /\
      (count is_finish new <= count is_claim new)%nat /\
      length (requests_of new) = (count is_start new + count is_claim new)%nat /\
      ((play_game E fuel n w = Running r w' /\ r <> 0 /\
        count is_start new = fuel /\ count is_break new = 0%nat) \/
       (play_game E fuel n w = Done (Ret r) w' /\
        (count is_start new <= fuel)%nat /\
        ((r = 0 /\ count is_break new = 0%nat) \/
         (r <> 0 /\ count is_break new = 1%nat)))).
Proof.
  induction fuel as [|fuel IH]; intros n w; cbn [play_game].
  - destruct (n =? 0) eqn:Hz; exists n, w, []; unfold count; simpl;
      repeat split; auto; try lia.
    + right. apply Z.eqb_eq in Hz. repeat split; auto.
    + left. apply Z.eqb_neq in Hz. repeat split; auto.
  - destruct (n =? 0) eqn:Hz.
    { exists n, w, []; unfold count; simpl; repeat split; auto; try lia.
      right. apply Z.eqb_eq in Hz. repeat split; auto. lia. }
    apply Z.eqb_neq in Hz.
    destruct (play_pass_result E n w) as (c & w1 & Hp & Hr). rewrite Hp.
    destruct (pass_result_counts E n w c w1 Hr)
      as (new1 & He & Hh & Ht & S1 & C1 & F1 & L1 & Hc).
    destruct c as [m|].
    + destruct Hc as [B1 Hm].
      destruct (IH m w1)
        as (r & w' & new & E2 & H2 & T2 & R2 & S2 & C2 & F2 & L2 & Hrun).
      exists r, w', (new ++ new1)%list.
      repeat split; try congruence;
        rewrite ?count_app, ?requests_of_app, ?length_app; try lia.
      * rewrite E2, He, app_assoc. reflexivity.
      * destruct Hrun as [(Hrun & Hr0 & Hs & Hb)|(Hrun & Hs & Hb)].
        -- left. repeat split; auto; lia.
        -- right. split; [exact Hrun|]. split; [lia|].
           destruct Hb as [[Hr0 Hb]|[Hr0 Hb]]; [left|right]; split; auto; lia.
    + destruct Hc as (B1 & F1' & E1').
      exists n, w1, new1. repeat split; auto; try lia.
      right. repeat split; auto; try lia.
Qed.

Lemma is_true_claim_message (r : response) :
  is_true (claim_message r) = true -> text r = "OK".
Proof.
  unfold claim_message. destruct (String.eqb (text r) "OK") eqn:H.
  - intros _. apply String.eqb_eq. exact H.
  - discriminate.
Qed.

(** C8, as the code has it: in every run of play_game the pass counter goes
    down only at the end of a round in which start_game returned a value
    that play_game takes for a game identifier (not false and not the
    refusal "cannot start game": a gameId, or any other message) and the
    claim of it was answered with the text OK; an exception in a round is
    caught, logged and followed by the backoff, and the next iteration
    runs with the same counter.  A run is made of such iterations, one
    start each, ended by a finished round, an error or a stop: the counter
    is its first value less the finished rounds, a run still going made as
    many iterations as it was given, and a run is left with the counter at
    zero or at a stop. *)
Theorem pass_consumed_only_by_finished_round (E : env) (n : Z) (w : world) :
  (exists c w',
     play_pass E n w = (Ret c, w') /\
     (c = Next (n - 1) \/ c = Next n \/ c = Break) /\
     (c = Next (n - 1) ->
        exists g w1 points evs r,
          start_game E (add_event (Slept PlayDelay) w) = (Ret g, w1) /\
          accepted_id g = true /\
          events w' = Slept RoundDelay :: Logged (FinishPlay points) ::
                      Sent (claim_request g points) :: evs /\
          serve E (requests_of evs) (claim_request g points) = Resp r /\
          text r = "OK") /\
     (c = Next n <-> exists e w1, play_round E n w = (Raise e, w1)) /\
     (forall e w1, play_round E n w = (Raise e, w1) -> w' = backoff e w1)) /\
  (forall fuel, exists r w' new,
     events w' = (new ++ events w)%list /\
     r = n - Z.of_nat (count is_finish new) /\
     count is_start new =
       (count is_finish new + count is_error new + count is_break new)%nat /\
     ((play_game E fuel n w = Running r w' /\ r <> 0 /\
       count is_start new = fuel /\ count is_break new = 0%nat) \/
      (play_game E fuel n w = Done (Ret r) w' /\
       (count is_start new <= fuel)%nat /\
       ((r = 0 /\ count is_break new = 0%nat) \/
        (r <> 0 /\ count is_break new = 1%nat))))).
Proof.
  split.
  2:{ intros fuel.
      destruct (play_game_iterations E fuel n w)
        as (r & w' & new & H1 & _ & _ & H2 & H3 & _ & _ & _ & H4).
      exists r, w', new. auto. }
  destruct (play_pass_result E n w) as (c & w' & Hp & Hr).
  exists c, w'. split; [exact Hp|].
  assert (Hraise : forall e w1, play_round E n w = (Raise e, w1) ->
            start_game E (add_event (Slept PlayDelay) w) = (Raise e, w1) \/
            exists g w0,
              start_game E (add_event (Slept PlayDelay) w) = (Ret g, w0) /\
              accepted_id g = true /\
              claim_game E g (add_event (Slept RoundDelay) w0) = (Raise e, w1))
    by (intros e w1; apply play_round_raises).
  destruct Hr as [g w1 msg points w2 Hs Hg Hc Hm | g w1 Hs Hg
                 | g w1 msg points w2 Hs Hg Hc Hm | e w1 Hs | g w1 e w2 Hs Hg Hc].
  - split; [auto|]. split; [|split].
    + intros _.
      destruct (claim_game_world E g (add_event (Slept RoundDelay) w1))
        as (o & new & Hw & _ & _ & Hlast).
      rewrite Hw in Hc. injection Hc as Ho Hw2.
      destruct (Hlast msg points Ho) as (evs & r & Hevs & Hserve & Hmsg).
      exists g, w1, points, evs, r. repeat split; auto.
      * rewrite <- Hw2. simpl. simpl in Hevs. rewrite Hevs. reflexivity.
      * apply is_true_claim_message. rewrite <- Hmsg. exact Hm.
    + split.
      * intros [= Hn]. lia.
      * intros (e & w0 & Hraised).
        destruct (Hraise e w0 Hraised) as [Hs'|(g' & w0' & Hs' & _ & Hc')];
          rewrite Hs in Hs'; [discriminate|].
        injection Hs' as <- <-. rewrite Hc in Hc'. discriminate.
    + intros e w0 Hraised.
      destruct (Hraise e w0 Hraised) as [Hs'|(g' & w0' & Hs' & _ & Hc')];
        rewrite Hs in Hs'; [discriminate|].
      injection Hs' as <- <-. rewrite Hc in Hc'. discriminate.
  - split; [auto|]. split; [discriminate|]. split; [split; [discriminate|]|].
    + intros (e & w0 & Hraised).
      destruct (Hraise e w0 Hraised) as [Hs'|(g' & w0' & Hs' & Hg' & _)];
        rewrite Hs in Hs'; [discriminate|].
      injection Hs' as <- <-. congruence.
    + intros e w0 Hraised.
      destruct (Hraise e w0 Hraised) as [Hs'|(g' & w0' & Hs' & Hg' & _)];
        rewrite Hs in Hs'; [discriminate|].
      injection Hs' as <- <-. congruence.
  - split; [auto|]. split; [discriminate|]. split; [split; [discriminate|]|].
    + intros (e & w0 & Hraised).
      destruct (Hraise e w0 Hraised) as [Hs'|(g' & w0' & Hs' & _ & Hc')];
        rewrite Hs in Hs'; [discriminate|].
      injection Hs' as <- <-. rewrite Hc in Hc'. discriminate.
    + intros e w0 Hraised.
      destruct (Hraise e w0 Hraised) as [Hs'|(g' & w0' & Hs' & _ & Hc')];
        rewrite Hs in Hs'; [discriminate|].
      injection Hs' as <- <-. rewrite Hc in Hc'. discriminate.
  - split; [auto|]. split; [intros [= Hn]; lia|]. split; [split; [intros _|auto]|].
    + exists e, w1. apply play_round_raises. auto.
    + intros e' w0 Hraised.
      destruct (Hraise e' w0 Hraised) as [Hs'|(g' & w0' & Hs' & _)];
        rewrite Hs in Hs'; [|discriminate].
      injection Hs' as <- <-. reflexivity.
  - split; [auto|]. split; [intros [= Hn]; lia|]. split; [split; [intros _|auto]|].
    + exists e, w2. apply play_round_raises. right. eauto.
    + intros e' w0 Hraised.
      destruct (Hraise e' w0 Hraised) as [Hs'|(g' & w0' & Hs' & _ & Hc')];
        rewrite Hs in Hs'; [discriminate|].
      injection Hs' as <- <-. rewrite Hc in Hc'. injection Hc' as <- <-. reflexivity.
Qed.

(** C8, as stated, fails: the start is answered with the message "Too many
    requests" and no gameId, the claim of a game of that name with OK, and
    the round is finished and takes the one pass there was. *)
Lemma message_round_consumes_a_pass :
  serve (mock lenient_service) [] start_request =
    json_reply 200 (PDict {[ "message" := PStr "Too many requests" ]}) /\
  play_game (mock lenient_service) 5 1 fresh =
  Done (Ret 0)
       (World [Slept RoundDelay; Logged (FinishPlay 100);
               Sent (claim_request (PStr "Too many requests") 100);
               Slept RoundDelay; Sent start_request; Slept PlayDelay]
              ∅ (PStr "") 1).
Proof. split; vm_compute; reflexivity. Qed.

(** ** The mock services *)

Lemma winning_service_always_wins : always_wins (mock winning_service).
Proof.
  split; intros h req Hurl; simpl; unfold winning_service; rewrite Hurl; simpl.
  - exists (Response 200 "" (Some (PDict {[ "gameId" := PStr "g-1" ]}))),
      {[ "gameId" := PStr "g-1" ]}, "g-1".
    repeat split; auto; discriminate.
  - exists (Response 200 "OK" None). auto.
Qed.

Lemma one_game_service_refuses_second :
  refuses_second_start (mock one_game_service) fresh.
Proof.
  repeat split; intros h req Hurl; simpl; unfold one_game_service;
    rewrite Hurl; simpl; rewrite ?app_nil_r.
  - intros ->.
    exists (Response 200 "" (Some (PDict {[ "gameId" := PStr "g-1" ]}))),
      {[ "gameId" := PStr "g-1" ]}, "g-1".
    repeat split; auto; discriminate.
  - intros ->.
    exists (Response 200 "" (Some (PDict {[ "message" := PStr refusal ]}))),
      {[ "message" := PStr refusal ]}.
    repeat split; auto.
  - exists (Response 200 "OK" None). auto.
Qed.

Lemma mock_points_range service : points_range (mock service).
Proof. unfold points_range. simpl. lia. Qed.

(** ** The loop from start to end *)

(** C1: with 3 passes and a service that starts every game and answers
    every claim with OK, play_game plays exactly 3 rounds (3 starts, 3
    finished rounds, each with its claim) and leaves with the counter at 0;
    with a service that refuses the second start with "cannot start game",
    it leaves after exactly 1 finished round, at the refused start, which
    it logs. *)
Theorem three_passes_played_or_early_stop (E1 E2 : env) (w : world) :
  always_wins E1 -> points_range E1 ->
  refuses_second_start E2 w -> points_range E2 ->
  (forall fuel, (3 <= fuel)%nat ->
     exists new,
       play_game E1 fuel 3 w =
       Done (Ret 0) (World (new ++ events w) (headers w) (refresh_token w)
                           (3 + draws w)) /\
       count is_start new = 3%nat /\ count is_finish new = 3%nat /\
       (3 <= count is_claim new <= 6)%nat) /\
  (forall fuel, (2 <= fuel)%nat ->
     exists new,
       play_game E2 fuel 3 w =
       Done (Ret 2)
            (World (Logged (CouldntStartPlay 2) :: Sent start_request ::
                    Slept PlayDelay :: new ++ events w)
                   (headers w) (refresh_token w) (1 + draws w)) /\
       count is_start new = 1%nat /\ count is_finish new = 1%nat /\
       (1 <= count is_claim new <= 2)%nat).
Proof.
  intros Hwins Hrange1 (Hfirst & Hsecond & Hok) Hrange2. split.
  - intros fuel Hfuel.
    destruct (play_game_wins E1 Hwins Hrange1 3 fuel w Hfuel)
      as (new & Hrun & H1 & H2 & H3).
    exists new. change (Z.of_nat 3) with 3 in Hrun. auto.
  - intros [|[|fuel]] Hfuel; try lia.
    cbn [play_game]. change (3 =? 0) with false. cbv iota.
    destruct (Hfirst [] start_request eq_refl eq_refl)
      as (r & d & s & Hs & Hj & Hg & Hne & Href).
    destruct (play_pass_wins E2 3 w r d s Hs Hj Hg Hne Href Hok Hrange2)
      as (new & Hp & C1 & C2 & C3).
    rewrite Hp. change (3 - 1) with 2. change (2 =? 0) with false. cbv iota.
    set (w1 := World (new ++ events w) (headers w) (refresh_token w) (S (draws w))).
    assert (play_requests (requests_of new) = 1%nat) as Hone
      by (rewrite play_requests_requests_of; exact C1).
    destruct (Hsecond (requests_of new) start_request eq_refl Hone)
      as (r2 & d2 & Hs2 & Hj2 & Hg2 & Hm2).
    rewrite <- requests_of_app in Hs2.
    rewrite (play_pass_refused E2 2 w1 r2 d2 (PStr refusal) Hs2 Hj2 Hg2 Hm2 eq_refl).
    exists new. repeat split; auto; lia.
Qed.

Lemma three_passes_played_or_early_stop_witness :
  (exists new,
     play_game (mock winning_service) 3 3 fresh =
     Done (Ret 0) (World (new ++ []) ∅ (PStr "") 3) /\
     count is_start new = 3%nat /\ count is_finish new = 3%nat /\
     (3 <= count is_claim new <= 6)%nat) /\
  (exists new,
     play_game (mock one_game_service) 2 3 fresh =
     Done (Ret 2)
          (World (Logged (CouldntStartPlay 2) :: Sent start_request ::
                  Slept PlayDelay :: new ++ [])
                 ∅ (PStr "") 1) /\
     count is_start new = 1%nat /\ count is_finish new = 1%nat /\
     (1 <= count is_claim new <= 2)%nat).
Proof.
  destruct (three_passes_played_or_early_stop
              (mock winning_service) (mock one_game_service) fresh
              winning_service_always_wins (mock_points_range _)
              one_game_service_refuses_second (mock_points_range _)) as [A B].
  split; [apply (A 3%nat); lia | apply (B 2%nat); lia].
Defined.

(** C5, as the code has it: when the answer to a start has no game
    identifier and its message is the refusal "cannot start game" (or a
    message that is empty or otherwise false), play_game leaves the loop at
    once: it logs the stop, sends nothing more, no claim, and the counter
    keeps the passes that were left. *)
Theorem refusal_message_ends_the_loop
  (E : env) (fuel : nat) (n : Z) (w : world) r d m :
  n <> 0 ->
  serve E (requests_of (events w)) start_request = Resp r ->
  json r = Some (PDict d) ->
  d !! "gameId" = None ->
  d !! "message" = Some m ->
  m = PStr refusal \/ truthy m = false ->
  play_game E (S fuel) n w =
  Done (Ret n)
       (World (Logged (CouldntStartPlay n) :: Sent start_request ::
               Slept PlayDelay :: events w)
              (headers w) (refresh_token w) (draws w)).
Proof.
  intros Hn Hs Hj Hg Hm Hrefusal.
  cbn [play_game]. destruct (n =? 0) eqn:Hz; [apply Z.eqb_eq in Hz; lia|].
  rewrite (play_pass_refused E n w r d m Hs Hj Hg Hm); [reflexivity|].
  unfold accepted_id. destruct Hrefusal as [Heq | Heq]; rewrite Heq; reflexivity.
Qed.

Lemma refusal_message_ends_the_loop_witness :
  play_game (mock one_game_service) 1 (-2)
            (World [Sent start_request] ∅ (PStr "") 0) =
  Done (Ret (-2))
       (World [Logged (CouldntStartPlay (-2)); Sent start_request;
               Slept PlayDelay; Sent start_request]
              ∅ (PStr "") 0).
Proof.
  apply (refusal_message_ends_the_loop (mock one_game_service) 0 (-2)
           (World [Sent start_request] ∅ (PStr "") 0)
           (Response 200 "" (Some (PDict {[ "message" := PStr refusal ]})))
           {[ "message" := PStr refusal ]} (PStr refusal)).
  - lia.
  - reflexivity.
  - reflexivity.
  - reflexivity.
  - reflexivity.
  - left. reflexivity.
Defined.

(** C5, as stated, fails: the answer to the start carries the message
    "Too many requests" and no game identifier, and play_game goes on to
    claim a game of that name (twice, the first claim being answered 404). *)
Lemma other_message_is_claimed :
  serve (mock busy_service) [] start_request =
    json_reply 200 (PDict {[ "message" := PStr "Too many requests" ]}) /\
  play_game (mock busy_service) 1 1 fresh =
  Done (Ret 1)
       (World [Logged (CouldntPlayGame (PStr "game not found") 1);
               Sent (claim_request (PStr "Too many requests") 100);
               Slept (Seconds 1);
               Sent (claim_request (PStr "Too many requests") 100);
               Slept RoundDelay; Sent start_request; Slept PlayDelay]
              ∅ (PStr "") 1).
Proof. split; vm_compute; reflexivity. Qed.

(** C10: with 0 passes the loop body never runs and nothing is sent.  The
    loop tests the counter against zero, not its sign: from a negative
    counter it can only be left by a break, the counter never reaches
    zero, and against a service that always wins it runs for ever, one
    pass further below zero at each iteration; from a counter n >= 0 that
    service lets it end after n iterations. *)
Theorem zero_passes_no_round_negative_no_exhaustion (E : env) (w : world) :
  (forall fuel, play_game E fuel 0 w = Done (Ret 0) w) /\
  (forall fuel n, n < 0 ->
     (exists r w', play_game E fuel n w = Done (Ret r) w' /\ r < 0) \/
     (exists r w', play_game E fuel n w = Running r w' /\ r < 0)) /\
  (always_wins E -> points_range E ->
     (forall (k fuel : nat), (k <= fuel)%nat ->
        exists w', play_game E fuel (Z.of_nat k) w = Done (Ret 0) w') /\
     (forall fuel n, n < 0 ->
        exists w', play_game E fuel n w = Running (n - Z.of_nat fuel) w')).
Proof.
  split; [|split].
  - intros [|fuel]; reflexivity.
  - intros fuel n Hn. apply play_game_negative. exact Hn.
  - intros Hwins Hrange. split.
    + intros k fuel Hfuel.
      destruct (play_game_wins E Hwins Hrange k fuel w Hfuel) as (new & Hrun & _).
      eauto.
    + intros fuel n Hn. apply play_game_negative_runs; auto.
Qed.

Lemma zero_passes_no_round_negative_no_exhaustion_witness :
  play_game (mock winning_service) 5 0 fresh = Done (Ret 0) fresh /\
  (exists w', play_game (mock winning_service) 4 4 fresh = Done (Ret 0) w') /\
  (exists w', play_game (mock winning_service) 7 (-1) fresh = Running (-8) w').
Proof.
  destruct (zero_passes_no_round_negative_no_exhaustion
              (mock winning_service) fresh) as (A & _ & B).
  destruct (B winning_service_always_wins (mock_points_range _)) as [C D].
  split; [apply (A 5%nat)|split].
  - apply (C 4%nat 4%nat). lia.
  - apply (D 7%nat (-1)). lia.
Defined.

(** ** Seconds from milliseconds *)

Lemma round_half_even_near (n d : Z) :
  0 < d -> 0 <= n ->
  round_half_even n d = n / d \/
  (round_half_even n d = n / d + 1 /\ d <= 2 * (n mod d)).
Proof.
  intros Hd Hn. unfold round_half_even. cbv zeta.
  destruct (2 * (n mod d) <? d) eqn:H1; [auto|].
  apply Z.ltb_ge in H1.
  destruct (d <? 2 * (n mod d)) eqn:H2; [right; split; auto|].
  destruct (Z.even (n / d)); [auto|right; split; auto].
Qed.

(** Below [ms_bound] the last place of [t / 1000] is at most [2 ^ -9]. *)
Lemma ulp_exponent_ms (t : Z) :
  0 < t < ms_bound -> -1074 <= ulp_exponent t 1000 <= -9.
Proof.
  unfold ms_bound. intros [Hpos Hlt]. unfold ulp_exponent.
  change (Z.log2 1000) with 9.
  assert (Z.log2 t <= 53) as Hlog.
  { assert (Z.log2 t < 54); [|lia]. apply Z.log2_lt_pow2; [lia|].
    change (2 ^ 54) with 18014398509481984.
    change (2 ^ 44) with 17592186044416 in Hlt. lia. }
  pose proof (Z.log2_nonneg t) as Hnn.
  destruct (Z.eq_dec (Z.log2 t) 53) as [E53|N53].
  - rewrite E53. change (53 - 9) with 44. change (Z.max 0 (- 44)) with 0.
    change (Z.max 0 44) with 44. rewrite Z.pow_0_r, Z.mul_1_r.
    destruct (t <? 1000 * 2 ^ 44) eqn:C; [|apply Z.ltb_ge in C; lia].
    lia.
  - destruct (_ <? _); lia.
Qed.

(** [int(t / 1000)] is [floor (t / 1000)] for a timestamp below the bound:
    the rounding of the float division cannot reach the next integer. *)
Lemma int_div_1000_floor (t : Z) :
  0 <= t < ms_bound -> int_div_1000 (PInt t) = Ret (PInt (t / 1000)).
Proof.
  intros [H0 Hlt]. unfold int_div_1000, truediv.
  destruct (Z.eqb t 0) eqn:Hz.
  { apply Z.eqb_eq in Hz. subst. reflexivity. }
  apply Z.eqb_neq in Hz.
  assert (0 < t) as Hpos by lia.
  rewrite (Z.abs_eq t) by lia.
  unfold truediv_pos.
  pose proof (ulp_exponent_ms t (conj Hpos Hlt)) as [He1 He2].
  set (e := ulp_exponent t 1000) in *.
  destruct (0 <=? e) eqn:Hle; [apply Z.leb_le in Hle; lia|].
  cbn [andb].
  rewrite (Z.max_l 0 e) by lia. rewrite (Z.max_r 0 (- e)) by lia.
  rewrite Z.pow_0_r, Z.mul_1_r.
  unfold int_of_float. cbn [mant expo]. rewrite Hle.
  rewrite (Z.sgn_pos t) by lia. rewrite Z.mul_1_l.
  do 2 f_equal.
  set (P := 2 ^ (- e)).
  assert (512 <= P) as HP.
  { change 512 with (2 ^ 9). apply Z.pow_le_mono_r; lia. }
  pose proof (round_half_even_near (t * P) 1000 ltac:(lia) ltac:(nia)) as Hm.
  set (m := round_half_even (t * P) 1000) in *.
  pose proof (Z.div_mod (t * P) 1000 ltac:(lia)) as Hdm.
  pose proof (Z.mod_pos_bound (t * P) 1000 ltac:(lia)) as Hmb.
  pose proof (Z.div_mod t 1000 ltac:(lia)) as Hdt.
  pose proof (Z.mod_pos_bound t 1000 ltac:(lia)) as Hmt.
  set (k := t / 1000) in *. set (r0 := t mod 1000) in *.
  set (q := t * P / 1000) in *. set (r := (t * P) mod 1000) in *.
  assert (0 <= k) as Hk by (subst k; apply Z.div_pos; lia).
  assert (k * P <= m < (k + 1) * P) as Hbounds by nia.
  rewrite Z.quot_div_nonneg by lia.
  symmetry. apply (Z.div_unique m P k (m - k * P)); lia.
Qed.

Lemma ms_bound_value : ms_bound = 17592186044416000.
Proof. reflexivity. Qed.


(** ** Registration *)

(** C4, as the code has it: when the body of the answer decodes as JSON,
    register raises RefCodeError if the text contains "limit", and
    AccountUsedError if it contains "already connected" and not "limit",
    whatever the HTTP status; the session is left as it was. *)
Theorem register_business_errors
  (E : env) (w : world) (referral_code username query : string) r body :
  get_tg_web_data E (Some referral_code) = Ret query ->
  serve E (requests_of (events w)) (register_request query referral_code username)
  = Resp r ->
  json r = Some body ->
  (contains "limit" (text r) = true ->
   register E referral_code username w =
   (Raise RefCodeError,
    add_event (Sent (register_request query referral_code username)) w)) /\
  (contains "limit" (text r) = false ->
   contains "already connected" (text r) = true ->
   register E referral_code username w =
   (Raise AccountUsedError,
    add_event (Sent (register_request query referral_code username)) w)).
Proof.
  intros Hq Hs Hj.
  split.
  - intros Hlimit. unfold register. unfold_monad. rewrite Hq.
    fold (register_request query referral_code username).
    rewrite Hs, Hj, Hlimit. reflexivity.
  - intros Hlimit Hused. unfold register. unfold_monad. rewrite Hq.
    fold (register_request query referral_code username).
    rewrite Hs, Hj, Hlimit, Hused. reflexivity.
Qed.

Lemma register_business_errors_witness :
  register (mock (answering auth_url limit_reply)) "ref-1" "alice" fresh =
  (Raise RefCodeError,
   add_event (Sent (register_request "query_id=1" "ref-1" "alice")) fresh).
Proof.
  destruct (register_business_errors
              (mock (answering auth_url limit_reply)) fresh "ref-1" "alice"
              "query_id=1"
              (Response 500 "Referral token limit reached"
                 (Some (PDict {[ "message" := PStr "Referral token limit reached" ]})))
              (PDict {[ "message" := PStr "Referral token limit reached" ]})
              eq_refl eq_refl eq_refl) as [H _].
  apply H. reflexivity.
Defined.

(** C4, as stated, fails: the text contains "already connected", and
    "limit" too, and the error is RefCodeError. *)
Lemma already_connected_but_limit_first :
  contains "already connected"
    "referral limit reached, account already connected" = true /\
  fst (register (mock (answering auth_url both_errors_reply)) "ref-1" "alice" fresh)
  = Raise RefCodeError.
Proof. split; vm_compute; reflexivity. Qed.

(** The text is not looked at when the body is not JSON. *)
Lemma register_undecodable_body :
  contains "limit" "Referral token limit reached" = true /\
  fst (register (mock (answering auth_url
                         (text_reply 500 "Referral token limit reached")))
                "ref-1" "alice" fresh)
  = Raise DecodeError.
Proof. split; vm_compute; reflexivity. Qed.

(** ** One retry *)

(** The three operations that look at the status first send the request
    once more, after one second, when the status is not 200, and no third
    time. *)
Lemma claim_game_retries_once (E : env) (g : pyval) (w : world) r1 p :
  points_range E ->
  p = fst (POINTS E) + draw E (draws w) mod (snd (POINTS E) - fst (POINTS E) + 1) ->
  serve E (requests_of (events w)) (claim_request g p) = Resp r1 ->
  status r1 <> 200 ->
  exists o,
    claim_game E g w =
    (o, World (Sent (claim_request g p) :: Slept (Seconds 1) ::
               Sent (claim_request g p) :: events w)
              (headers w) (refresh_token w) (S (draws w))) /\
    match serve E (claim_request g p :: requests_of (events w)) (claim_request g p) with
    | Resp r2 => o = Ret (claim_message r2, p)
    | Refused => o = Raise ClientError
    end.
Proof.
  unfold points_range. intros Hrange -> Hs Hstatus.
  unfold claim_game, randint, claim_request in *. unfold_monad.
  destruct (POINTS E) as [lo hi]. simpl in *.
  destruct (hi <? lo) eqn:Hlt; [apply Z.ltb_lt in Hlt; lia|].
  cbn [events]. rewrite Hs.
  destruct (status r1 =? 200) eqn:H200; [apply Z.eqb_eq in H200; contradiction|].
  simpl.
  match goal with
  | |- context [serve E ?h ?req] => destruct (serve E h req); eauto
  end.
Qed.

Lemma claim_retries_once (E : env) (w : world) r1 :
  serve E (requests_of (events w)) farming_claim_request = Resp r1 ->
  status r1 <> 200 ->
  exists o, claim E w = (o, retried farming_claim_request w).
Proof.
  intros Hs Hstatus. unfold claim, retried. unfold_monad.
  fold farming_claim_request. rewrite Hs.
  destruct (status r1 =? 200) eqn:H200; [apply Z.eqb_eq in H200; contradiction|].
  simpl. repeat case_inner; eauto.
Qed.

Lemma start_retries_once (E : env) (w : world) r1 :
  serve E (requests_of (events w)) farming_start_request = Resp r1 ->
  status r1 <> 200 ->
  exists o, start E w = (o, retried farming_start_request w).
Proof.
  intros Hs Hstatus. unfold start, retried. unfold_monad.
  fold farming_start_request. rewrite Hs.
  destruct (status r1 =? 200) eqn:H200; [apply Z.eqb_eq in H200; contradiction|].
  simpl. repeat case_inner; eauto.
Qed.

(** [friend_balance] decodes the first body before it looks at the status:
    it sends the request again when that body is a JSON object. *)
Lemma friend_balance_retries_once (E : env) (w : world) r1 d1 :
  serve E (requests_of (events w)) friends_balance_request = Resp r1 ->
  status r1 <> 200 ->
  json r1 = Some (PDict d1) ->
  exists o, friend_balance E w = (o, retried friends_balance_request w).
Proof.
  intros Hs Hstatus Hj. unfold friend_balance, retried. unfold_monad.
  fold friends_balance_request. rewrite Hs, Hj.
  destruct (status r1 =? 200) eqn:H200; [apply Z.eqb_eq in H200; contradiction|].
  simpl. repeat case_inner; eauto.
Qed.

(** C2, where the code departs from it: the first answer to friend_balance
    has status 502 and a body that is not JSON; friend_balance raises at
    the decoding of that body, having sent one request and no second. *)
Theorem friend_balance_gives_up_on_undecodable_body :
  status (Response 502 "<html>502 Bad Gateway</html>" None) <> 200 /\
  friend_balance (mock (answering friends_balance_url bad_gateway)) fresh =
  (Raise DecodeError, World [Sent friends_balance_request] ∅ (PStr "") 0).
Proof. split; [discriminate|reflexivity]. Qed.

(** ** Unexpected bodies *)

Lemma get_tasks_not_a_list (E : env) (w : world) r v :
  serve E (requests_of (events w)) tasks_request = Resp r ->
  json r = Some v ->
  (forall l, v <> PList l) ->
  get_tasks E w =
  (Ret (PList []),
   World (Logged (UnexpectedTasksFormat v) :: Logged (GetTasksResponse v) ::
          Sent tasks_request :: events w)
         (headers w) (refresh_token w) (draws w)).
Proof.
  intros Hs Hj Hv. unfold get_tasks. unfold_monad. fold tasks_request.
  rewrite Hs, Hj. destruct v; try reflexivity. destruct (Hv l eq_refl).
Qed.

(** A refresh answer without the refresh token stores None. *)
Lemma refresh_without_refresh_token (E : env) (w : world) r d access :
  serve E (requests_of (events w)) (refresh_request (refresh_token w)) = Resp r ->
  json r = Some (PDict d) ->
  d !! "access" = Some (PStr access) ->
  d !! "refresh" = None ->
  refresh E w =
  (Ret tt,
   World (Sent (refresh_request (refresh_token w)) :: events w)
         (<["Authorization" := "Bearer " ++ access]> (headers w)) PNone (draws w)).
Proof.
  intros Hs Hj Ha Hr. unfold refresh. unfold_monad.
  fold (refresh_request (refresh_token w)). rewrite Hs, Hj.
  cbn [py_get]. rewrite Ha, Hr. reflexivity.
Qed.

(** C6, where the code departs from it: a farming claim answered without
    timestamp, and a refresh answered without access token, raise
    TypeError instead of giving None. *)
Theorem missing_timestamp_or_access_raises :
  claim (mock (answering farming_claim_url
                 (json_reply 200 (PDict {[ "availableBalance" := PStr "12.5" ]}))))
        fresh =
  (Raise TypeError, World [Sent farming_claim_request] ∅ (PStr "") 0) /\
  refresh (mock (answering refresh_url
                   (json_reply 200 (PDict {[ "refresh" := PStr "R2" ]}))))
          logged_in =
  (Raise TypeError,
   World [Sent (refresh_request (PStr "old-refresh"))]
         {[ "Authorization" := "Bearer old-access" ]} (PStr "old-refresh") 0).
Proof. split; reflexivity. Qed.

(** * Further properties of the client *)

(** ** What a claim of a game gives back *)

(** X1: whenever claim_game returns, the points are within config.POINTS,
    the last request sent is the claim of that game for these points, and
    the message is True exactly when the text of its answer is "OK", and
    that text otherwise. *)
Theorem claim_game_points_and_message
  (E : env) (g : pyval) (w : world) msg p w' :
  claim_game E g w = (Ret (msg, p), w') ->
  fst (POINTS E) <= p <= snd (POINTS E) /\
  exists evs r,
    events w' = Sent (claim_request g p) :: evs /\
    serve E (requests_of evs) (claim_request g p) = Resp r /\
    (msg = PBool true <-> text r = "OK") /\
    (text r <> "OK" -> msg = PStr (text r)).
Proof.
  intros H.
  assert (Hrange : fst (POINTS E) <= p <= snd (POINTS E)).
  { revert H. unfold claim_game, randint. unfold_monad.
    destruct (POINTS E) as [lo hi]. simpl.
    destruct (hi <? lo) eqn:Hlt; [discriminate|]. apply Z.ltb_ge in Hlt.
    pose proof (Z.mod_pos_bound (draw E (draws w)) (hi - lo + 1) ltac:(lia)).
    repeat case_inner; intros [= ? ? ?]; subst; lia. }
  split; [exact Hrange|].
  destruct (claim_game_world E g w) as (o & new & Hw & _ & _ & Hlast).
  rewrite Hw in H. injection H as Ho Hw'.
  destruct (Hlast msg p Ho) as (evs & r & Hevs & Hserve & Hmsg).
  exists evs, r. subst w'. simpl. repeat split; auto.
  - intros ->. apply is_true_claim_message. rewrite <- Hmsg. reflexivity.
  - intros Hok. rewrite Hmsg. unfold claim_message.
    apply String.eqb_eq in Hok. rewrite Hok. reflexivity.
  - intros Hne. rewrite Hmsg. unfold claim_message.
    apply String.eqb_neq in Hne. rewrite Hne. reflexivity.
Qed.

Lemma claim_game_points_and_message_witness :
  100 <= 100 <= 200 /\
  exists evs r,
    events (World [Sent (claim_request (PStr "g-1") 100)] ∅ (PStr "") 1) =
    Sent (claim_request (PStr "g-1") 100) :: evs /\
    serve (mock winning_service) (requests_of evs)
      (claim_request (PStr "g-1") 100) = Resp r /\
    (PBool true = PBool true <-> text r = "OK") /\
    (text r <> "OK" -> PBool true = PStr (text r)).
Proof.
  apply (claim_game_points_and_message (mock winning_service) (PStr "g-1") fresh
           (PBool true) 100). reflexivity.
Defined.

(** ** At most one retry *)

(** X2: none of the operations with a retry sends a third request, and
    each sends its own request: claim, start, friend_balance,
    get_referral_code and friend_claim send it once or twice and nothing
    else, whatever the service answers; so does claim_game, with the points
    it drew, unless the range of points is empty, when it sends nothing.
    None of them touches the headers or the refresh token. *)
Theorem one_retry_at_most (E : env) (w : world) :
  (forall g,
     (snd (POINTS E) < fst (POINTS E) -> snd (claim_game E g w) = w) /\
     (fst (POINTS E) <= snd (POINTS E) ->
      sent_once_or_twice
        (claim_request g
           (fst (POINTS E) +
            draw E (draws w) mod (snd (POINTS E) - fst (POINTS E) + 1)))
        w (snd (claim_game E g w)))) /\
  sent_once_or_twice farming_claim_request w (snd (claim E w)) /\
  sent_once_or_twice farming_start_request w (snd (start E w)) /\
  sent_once_or_twice friends_balance_request w (snd (friend_balance E w)) /\
  sent_once_or_twice friends_balance_request w (snd (get_referral_code E w)) /\
  sent_once_or_twice friends_claim_request w (snd (friend_claim E w)).
Proof.
  unfold sent_once_or_twice.
  split; [intros g; split; [intros Hempty|intros Hrange]|repeat split].
  - unfold claim_game, randint. unfold_monad.
    destruct (POINTS E) as [lo hi]. simpl in Hempty.
    apply Z.ltb_lt in Hempty. rewrite Hempty. reflexivity.
  - unfold claim_game, randint, claim_request. unfold_monad.
    destruct (POINTS E) as [lo hi]. simpl in Hrange. cbn [fst snd].
    destruct (hi <? lo) eqn:Hlt; [apply Z.ltb_lt in Hlt; lia|].
    repeat case_inner; close_budget.
  - unfold claim, farming_claim_request. unfold_monad.
    repeat case_inner; close_budget.
  - unfold start, farming_start_request. unfold_monad.
    repeat case_inner; close_budget.
  - unfold friend_balance, friends_balance_request. unfold_monad.
    repeat case_inner; close_budget.
  - unfold get_referral_code, friends_balance_request. unfold_monad.
    repeat case_inner; close_budget.
  - unfold friend_claim, friends_claim_request. unfold_monad.
    repeat case_inner; close_budget.
Qed.

(** ** Farming *)

(** X3: claim() reads the answer it stops at, and that one only: the first
    when its status is 200, else the second whatever its status.  From a
    body with the millisecond timestamp t, 0 <= t < 1000 * 2^44, it returns
    floor(t / 1000) and the availableBalance of that body as it is, None
    when it is missing. *)
Theorem claim_seconds_and_balance (E : env) (w : world) r d t :
  json r = Some (PDict d) ->
  d !! "timestamp" = Some (PInt t) ->
  0 <= t < ms_bound ->
  (serve E (requests_of (events w)) farming_claim_request = Resp r ->
   status r = 200 ->
   claim E w =
   (Ret (PInt (t / 1000), default PNone (d !! "availableBalance")),
    add_event (Sent farming_claim_request) w)) /\
  (forall r1,
     serve E (requests_of (events w)) farming_claim_request = Resp r1 ->
     status r1 <> 200 ->
     serve E (farming_claim_request :: requests_of (events w)) farming_claim_request
     = Resp r ->
     claim E w =
     (Ret (PInt (t / 1000), default PNone (d !! "availableBalance")),
      retried farming_claim_request w)).
Proof.
  intros Hj Ht Hbound.
  pose proof (int_div_1000_floor t Hbound) as Hsec.
  split.
  - intros Hs H200. unfold claim. unfold_monad. fold farming_claim_request.
    rewrite Hs, H200. simpl. rewrite Hj. cbn [py_get]. rewrite Ht.
    simpl default. rewrite Hsec. reflexivity.
  - intros r1 Hs1 Hstatus Hs2. unfold claim, retried. unfold_monad.
    fold farming_claim_request. rewrite Hs1.
    destruct (status r1 =? 200) eqn:H200; [apply Z.eqb_eq in H200; contradiction|].
    simpl. rewrite Hs2, Hj. cbn [py_get]. rewrite Ht.
    simpl default. rewrite Hsec. reflexivity.
Qed.

Lemma claim_seconds_and_balance_witness :
  claim (mock (flaky farming_claim_url bad_gateway
                 (json_reply 503 (PDict (<[ "timestamp" := PInt 1700000000999 ]>
                                         {[ "availableBalance" := PStr "57.6" ]})))))
        fresh =
  (Ret (PInt (1700000000999 / 1000), PStr "57.6"),
   retried farming_claim_request fresh).
Proof.
  destruct (claim_seconds_and_balance
              (mock (flaky farming_claim_url bad_gateway
                       (json_reply 503
                          (PDict (<[ "timestamp" := PInt 1700000000999 ]>
                                  {[ "availableBalance" := PStr "57.6" ]})))))
              fresh
              (Response 503 ""
                 (Some (PDict (<[ "timestamp" := PInt 1700000000999 ]>
                               {[ "availableBalance" := PStr "57.6" ]}))))
              (<[ "timestamp" := PInt 1700000000999 ]>
               {[ "availableBalance" := PStr "57.6" ]})
              1700000000999 eq_refl) as [_ H].
  - vm_compute. reflexivity.
  - rewrite ms_bound_value. lia.
  - apply (H (Response 502 "<html>502 Bad Gateway</html>" None)).
    + reflexivity.
    + discriminate.
    + reflexivity.
Defined.

(** X4: start() tells its caller nothing of the answers: it returns None
    as soon as its requests are answered, whatever their status and body,
    also when the second attempt fails like the first; it raises only when
    the transport does. *)
Theorem start_hides_the_answers (E : env) (w : world) :
  (forall o w', start E w = (o, w') -> o = Ret tt \/ o = Raise ClientError) /\
  ((forall h, exists r, serve E h farming_start_request = Resp r) ->
   exists w', start E w = (Ret tt, w')).
Proof.
  split.
  - unfold start. unfold_monad.
    repeat case_inner; intros o w' [= <- <-]; auto.
  - intros Hanswers. unfold start. unfold_monad. fold farming_start_request.
    destruct (Hanswers (requests_of (events w))) as [r1 H1]. rewrite H1.
    destruct (negb (status r1 =? 200)); simpl; [|eauto].
    destruct (Hanswers (farming_start_request :: requests_of (events w)))
      as [r2 H2].
    rewrite H2. eauto.
Qed.

Lemma start_hides_the_answers_witness :
  exists w', start (mock (answering farming_start_url bad_gateway)) fresh = (Ret tt, w').
Proof.
  destruct (start_hides_the_answers
              (mock (answering farming_start_url bad_gateway)) fresh) as [_ H].
  apply H. intros h. exists (Response 502 "<html>502 Bad Gateway</html>" None).
  reflexivity.
Defined.

(** ** Friends *)

(** X5: friend_balance and get_referral_code read the same endpoint.  With
    a first answer of status 200 each sends one request and returns the
    fields of that body, None for a missing one; with another status and a
    first body that is an object each sends the request again after one
    second and returns the fields of the second body alone, whatever its
    status. *)
Theorem friends_balance_fields (E : env) (w : world) r1 d1 :
  serve E (requests_of (events w)) friends_balance_request = Resp r1 ->
  json r1 = Some (PDict d1) ->
  (status r1 = 200 ->
   friend_balance E w =
   (Ret (default PNone (d1 !! "amountForClaim"), default PNone (d1 !! "canClaim")),
    add_event (Slept (Seconds 1)) (add_event (Sent friends_balance_request) w)) /\
   get_referral_code E w =
   (Ret (default PNone (d1 !! "referralToken")),
    add_event (Sent friends_balance_request) w)) /\
  (forall r2 d2,
     status r1 <> 200 ->
     serve E (friends_balance_request :: requests_of (events w))
       friends_balance_request = Resp r2 ->
     json r2 = Some (PDict d2) ->
     friend_balance E w =
     (Ret (default PNone (d2 !! "amountForClaim"), default PNone (d2 !! "canClaim")),
      retried friends_balance_request w) /\
     get_referral_code E w =
     (Ret (default PNone (d2 !! "referralToken")),
      retried friends_balance_request w)).
Proof.
  intros Hs Hj. split.
  - intros H200. split.
    + unfold friend_balance. unfold_monad. fold friends_balance_request.
      rewrite Hs, Hj, H200. reflexivity.
    + unfold get_referral_code. unfold_monad. fold friends_balance_request.
      rewrite Hs, Hj, H200. reflexivity.
  - intros r2 d2 Hstatus Hs2 Hj2.
    apply Z.eqb_neq in Hstatus. split.
    + unfold friend_balance, retried. unfold_monad. fold friends_balance_request.
      rewrite Hs, Hj, Hstatus. simpl. rewrite Hs2, Hj2. reflexivity.
    + unfold get_referral_code, retried. unfold_monad.
      fold friends_balance_request.
      rewrite Hs, Hj, Hstatus. simpl. rewrite Hs2, Hj2. reflexivity.
Qed.

Lemma friends_balance_fields_witness :
  friend_balance
    (mock (flaky friends_balance_url
             (json_reply 429 (PDict {[ "message" := PStr "slow down" ]}))
             (json_reply 200 (PDict (<[ "amountForClaim" := PStr "12.5" ]>
                                     {[ "referralToken" := PStr "r3f" ]})))))
    fresh =
  (Ret (PStr "12.5", PNone), retried friends_balance_request fresh) /\
  get_referral_code
    (mock (flaky friends_balance_url
             (json_reply 429 (PDict {[ "message" := PStr "slow down" ]}))
             (json_reply 200 (PDict (<[ "amountForClaim" := PStr "12.5" ]>
                                     {[ "referralToken" := PStr "r3f" ]})))))
    fresh =
  (Ret (PStr "r3f"), retried friends_balance_request fresh).
Proof.
  destruct (friends_balance_fields
              (mock (flaky friends_balance_url
                       (json_reply 429 (PDict {[ "message" := PStr "slow down" ]}))
                       (json_reply 200
                          (PDict (<[ "amountForClaim" := PStr "12.5" ]>
                                  {[ "referralToken" := PStr "r3f" ]})))))
              fresh
              (Response 429 "" (Some (PDict {[ "message" := PStr "slow down" ]})))
              {[ "message" := PStr "slow down" ]} eq_refl eq_refl) as [_ H].
  destruct (H (Response 200 ""
                 (Some (PDict (<[ "amountForClaim" := PStr "12.5" ]>
                               {[ "referralToken" := PStr "r3f" ]}))))
              (<[ "amountForClaim" := PStr "12.5" ]>
               {[ "referralToken" := PStr "r3f" ]})) as [H1 H2].
  - discriminate.
  - reflexivity.
  - reflexivity.
  - split.
    + etransitivity; [exact H1|]. vm_compute. reflexivity.
    + etransitivity; [exact H2|]. vm_compute. reflexivity.
Defined.

(** X6: get_referral_code and friend_claim decode the first body before
    they look at its status: when that body is not JSON they raise after
    one request, whatever the status, and send no second one. *)
Theorem referral_gives_up_on_undecodable_body (E : env) (w : world) :
  (forall r, serve E (requests_of (events w)) friends_balance_request = Resp r ->
             json r = None ->
             get_referral_code E w =
             (Raise DecodeError, add_event (Sent friends_balance_request) w)) /\
  (forall r, serve E (requests_of (events w)) friends_claim_request = Resp r ->
             json r = None ->
             friend_claim E w =
             (Raise DecodeError, add_event (Sent friends_claim_request) w)).
Proof.
  split; intros r Hs Hj.
  - unfold get_referral_code. unfold_monad. fold friends_balance_request.
    rewrite Hs, Hj. reflexivity.
  - unfold friend_claim. unfold_monad. fold friends_claim_request.
    rewrite Hs, Hj. reflexivity.
Qed.

Lemma referral_gives_up_on_undecodable_body_witness :
  friend_claim (mock (answering friends_claim_url bad_gateway)) fresh =
  (Raise DecodeError, add_event (Sent friends_claim_request) fresh).
Proof.
  destruct (referral_gives_up_on_undecodable_body
              (mock (answering friends_claim_url bad_gateway)) fresh) as [_ H].
  apply (H (Response 502 "<html>502 Bad Gateway</html>" None)); reflexivity.
Defined.

(** X7: friend_claim returns the claimBalance of the answer it stops at:
    of the first when its status is 200 (one request), of the second when
    the first is an object with another status (two requests, one second
    apart); the value is None when the field is missing. *)
Theorem friend_claim_amount (E : env) (w : world) r1 d1 :
  serve E (requests_of (events w)) friends_claim_request = Resp r1 ->
  json r1 = Some (PDict d1) ->
  (status r1 = 200 ->
   friend_claim E w =
   (Ret (default PNone (d1 !! "claimBalance")),
    add_event (Sent friends_claim_request) w)) /\
  (forall r2 d2,
     status r1 <> 200 ->
     serve E (friends_claim_request :: requests_of (events w))
       friends_claim_request = Resp r2 ->
     json r2 = Some (PDict d2) ->
     friend_claim E w =
     (Ret (default PNone (d2 !! "claimBalance")),
      retried friends_claim_request w)).
Proof.
  intros Hs Hj. split.
  - intros H200. unfold friend_claim. unfold_monad. fold friends_claim_request.
    rewrite Hs, Hj, H200. reflexivity.
  - intros r2 d2 Hstatus Hs2 Hj2. apply Z.eqb_neq in Hstatus.
    unfold friend_claim, retried. unfold_monad. fold friends_claim_request.
    rewrite Hs, Hj, Hstatus. simpl. rewrite Hs2, Hj2. reflexivity.
Qed.

Lemma friend_claim_amount_witness :
  friend_claim
    (mock (answering friends_claim_url
             (json_reply 200 (PDict {[ "claimBalance" := PStr "3.25" ]}))))
    fresh =
  (Ret (PStr "3.25"), add_event (Sent friends_claim_request) fresh).
Proof.
  destruct (friend_claim_amount
              (mock (answering friends_claim_url
                       (json_reply 200 (PDict {[ "claimBalance" := PStr "3.25" ]}))))
              fresh
              (Response 200 "" (Some (PDict {[ "claimBalance" := PStr "3.25" ]})))
              {[ "claimBalance" := PStr "3.25" ]} eq_refl eq_refl) as [H _].
  apply H. reflexivity.
Defined.

(** ** The daily reward *)

(** X8: claim_daily_reward sends one request and never a second, sleeps
    one second, and decides by the text alone, whatever the status: it
    returns True exactly when the text is "OK", and the text otherwise. *)
Theorem daily_reward_by_text (E : env) (w : world) v w' :
  claim_daily_reward E w = (Ret v, w') ->
  exists r,
    serve E (requests_of (events w)) daily_reward_request = Resp r /\
    w' = add_event (Slept (Seconds 1)) (add_event (Sent daily_reward_request) w) /\
    (v = PBool true <-> text r = "OK") /\
    (text r <> "OK" -> v = PStr (text r)).
Proof.
  unfold claim_daily_reward. unfold_monad. fold daily_reward_request.
  destruct (serve E _ _) as [r|]; [|discriminate].
  intros [= <- <-]. exists r. repeat split; auto.
  - destruct (String.eqb (text r) "OK") eqn:H; [|discriminate].
    intros _. apply String.eqb_eq. exact H.
  - intros H. apply String.eqb_eq in H. rewrite H. reflexivity.
  - intros H. apply String.eqb_neq in H. rewrite H. reflexivity.
Qed.

Lemma daily_reward_by_text_witness :
  exists r,
    serve (mock (answering daily_reward_url (text_reply 400 "same day")))
      (requests_of (events fresh)) daily_reward_request = Resp r /\
    add_event (Slept (Seconds 1)) (add_event (Sent daily_reward_request) fresh) =
    add_event (Slept (Seconds 1)) (add_event (Sent daily_reward_request) fresh) /\
    (PStr "same day" = PBool true <-> text r = "OK") /\
    (text r <> "OK" -> PStr "same day" = PStr (text r)).
Proof.
  apply (daily_reward_by_text
           (mock (answering daily_reward_url (text_reply 400 "same day"))) fresh).
  reflexivity.
Defined.

(** ** Tasks *)

(** X9: whatever get_tasks returns is a list: the body itself when the body
    is a list, and the empty list, after the error line in the log, when
    the body is any other JSON value; the credentials are not touched. *)
Theorem get_tasks_returns_a_list (E : env) (w : world) v w' :
  get_tasks E w = (Ret v, w') ->
  exists r body,
    serve E (requests_of (events w)) tasks_request = Resp r /\
    json r = Some body /\
    headers w' = headers w /\ refresh_token w' = refresh_token w /\
    ((exists l, body = PList l /\ v = body /\
                events w' = Logged (GetTasksResponse body) ::
                            Sent tasks_request :: events w) \/
     ((forall l, body <> PList l) /\ v = PList [] /\
      events w' = Logged (UnexpectedTasksFormat body) ::
                  Logged (GetTasksResponse body) ::
                  Sent tasks_request :: events w)).
Proof.
  unfold get_tasks. unfold_monad. fold tasks_request.
  destruct (serve E _ _) as [r|] eqn:Hs; [|discriminate].
  destruct (json r) as [body|] eqn:Hj; [|discriminate].
  intros H. exists r, body.
  destruct body; injection H as <- <-; simpl; repeat split; auto;
    try (right; repeat split; auto; intros l'; discriminate).
  left. eauto.
Qed.

Lemma get_tasks_returns_a_list_witness :
  exists r body,
    serve (mock (answering tasks_url
                   (json_reply 200 (PDict {[ "message" := PStr "maintenance" ]}))))
      (requests_of (events fresh)) tasks_request = Resp r /\
    json r = Some body /\
    headers (World [Logged (UnexpectedTasksFormat
                              (PDict {[ "message" := PStr "maintenance" ]}));
                    Logged (GetTasksResponse
                              (PDict {[ "message" := PStr "maintenance" ]}));
                    Sent tasks_request] ∅ (PStr "") 0) = headers fresh /\
    refresh_token (World [Logged (UnexpectedTasksFormat
                                    (PDict {[ "message" := PStr "maintenance" ]}));
                          Logged (GetTasksResponse
                                    (PDict {[ "message" := PStr "maintenance" ]}));
                          Sent tasks_request] ∅ (PStr "") 0) = refresh_token fresh /\
    ((exists l, body = PList l /\ PList [] = body /\
                [Logged (UnexpectedTasksFormat
                           (PDict {[ "message" := PStr "maintenance" ]}));
                 Logged (GetTasksResponse
                           (PDict {[ "message" := PStr "maintenance" ]}));
                 Sent tasks_request] =
                Logged (GetTasksResponse body) :: Sent tasks_request :: events fresh) \/
     ((forall l, body <> PList l) /\ PList [] = PList [] /\
      [Logged (UnexpectedTasksFormat (PDict {[ "message" := PStr "maintenance" ]}));
       Logged (GetTasksResponse (PDict {[ "message" := PStr "maintenance" ]}));
       Sent tasks_request] =
      Logged (UnexpectedTasksFormat body) :: Logged (GetTasksResponse body) ::
      Sent tasks_request :: events fresh)).
Proof.
  apply (get_tasks_returns_a_list
           (mock (answering tasks_url
                    (json_reply 200 (PDict {[ "message" := PStr "maintenance" ]}))))
           fresh (PList [])).
  reflexivity.
Defined.

(** ** The credentials *)

(** X10: refresh sends the stored refresh token in one request.  When it
    returns, the body was an object with a string access: the header
    Authorization is "Bearer " + access and the stored refresh token is the
    refresh field of the body, None when missing.  When it raises, header
    and refresh token are as before. *)
Theorem refresh_all_or_nothing (E : env) (w : world) o w' :
  refresh E w = (o, w') ->
  events w' = Sent (refresh_request (refresh_token w)) :: events w /\
  match o with
  | Ret _ =>
      exists r d access,
        serve E (requests_of (events w)) (refresh_request (refresh_token w)) = Resp r /\
        json r = Some (PDict d) /\
        d !! "access" = Some (PStr access) /\
        headers w' = <["Authorization" := "Bearer " ++ access]> (headers w) /\
        refresh_token w' = default PNone (d !! "refresh")
  | Raise _ => headers w' = headers w /\ refresh_token w' = refresh_token w
  end.
Proof.
  unfold refresh. unfold_monad. fold (refresh_request (refresh_token w)).
  destruct (serve E _ _) as [r|] eqn:Hs; [|intros [= <- <-]; auto].
  destruct (json r) as [body|] eqn:Hj; [|intros [= <- <-]; auto].
  destruct body as [ | | | | |d]; try (intros [= <- <-]; auto).
  cbn [py_get].
  destruct (d !! "access") as [[ | | |access| | ]|] eqn:Ha;
    intros [= <- <-]; simpl; auto.
  split; [reflexivity|]. exists r, d, access. auto.
Qed.

Lemma refresh_all_or_nothing_witness :
  events (World [Sent (refresh_request (PStr "old-refresh"))]
                {[ "Authorization" := "Bearer old-access" ]} (PStr "old-refresh") 0) =
  Sent (refresh_request (refresh_token logged_in)) :: events logged_in /\
  headers (World [Sent (refresh_request (PStr "old-refresh"))]
                 {[ "Authorization" := "Bearer old-access" ]} (PStr "old-refresh") 0) =
  headers logged_in /\
  refresh_token (World [Sent (refresh_request (PStr "old-refresh"))]
                       {[ "Authorization" := "Bearer old-access" ]}
                       (PStr "old-refresh") 0) =
  refresh_token logged_in.
Proof.
  apply (refresh_all_or_nothing
           (mock (answering refresh_url
                    (json_reply 200 (PDict {[ "refresh" := PStr "R2" ]}))))
           logged_in (Raise TypeError)).
  reflexivity.
Defined.

(** X11: register never returns False.  When it returns, the text had
    neither "limit" nor "already connected" in it, the header Authorization
    is "Bearer " + the access token of the body and the refresh token of
    the body is stored; when it raises, whatever the error, header and
    refresh token are as before. *)
Theorem register_all_or_nothing
  (E : env) (w : world) (referral_code username : string) o w' :
  register E referral_code username w = (o, w') ->
  match o with
  | Ret b =>
      b = true /\
      exists query r d t access,
        get_tg_web_data E (Some referral_code) = Ret query /\
        serve E (requests_of (events w))
          (register_request query referral_code username) = Resp r /\
        contains "limit" (text r) = false /\
        contains "already connected" (text r) = false /\
        json r = Some (PDict d) /\ d !! "token" = Some (PDict t) /\
        t !! "access" = Some (PStr access) /\
        headers w' = <["Authorization" := "Bearer " ++ access]> (headers w) /\
        refresh_token w' = default PNone (t !! "refresh")
  | Raise _ => headers w' = headers w /\ refresh_token w' = refresh_token w
  end.
Proof.
  unfold register. unfold_monad.
  destruct (get_tg_web_data E (Some referral_code)) as [query|e] eqn:Hq;
    [|intros [= <- <-]; auto].
  fold (register_request query referral_code username).
  destruct (serve E _ _) as [r|] eqn:Hs; [|intros [= <- <-]; auto].
  destruct (json r) as [body|] eqn:Hj; [|intros [= <- <-]; auto].
  destruct (contains "limit" (text r)) eqn:Hl; [intros [= <- <-]; auto|].
  destruct (contains "already connected" (text r)) eqn:Hu; [intros [= <- <-]; auto|].
  destruct body as [ | | | | |d]; try (intros [= <- <-]; auto).
  cbn [py_get].
  destruct (d !! "token") as [[ | | | | |t]|] eqn:Ht;
    try (intros [= <- <-]; simpl; auto).
  simpl.
  destruct (t !! "access") as [[ | | |access| | ]|] eqn:Ha;
    intros [= <- <-]; simpl; auto.
  split; [reflexivity|]. exists query, r, d, t, access.
  repeat split; assumption || reflexivity.
Qed.

Lemma register_all_or_nothing_witness :
  true = true /\
  exists query r d t access,
    get_tg_web_data (mock (answering auth_url (json_reply 200 (token_body "A1" "R1"))))
      (Some "ref-1") = Ret query /\
    serve (mock (answering auth_url (json_reply 200 (token_body "A1" "R1"))))
      (requests_of (events fresh)) (register_request query "ref-1" "alice") = Resp r /\
    contains "limit" (text r) = false /\
    contains "already connected" (text r) = false /\
    json r = Some (PDict d) /\ d !! "token" = Some (PDict t) /\
    t !! "access" = Some (PStr access) /\
    headers (World [Sent (register_request "query_id=1" "ref-1" "alice")]
                   {[ "Authorization" := "Bearer A1" ]} (PStr "R1") 0) =
    <["Authorization" := "Bearer " ++ access]> (headers fresh) /\
    refresh_token (World [Sent (register_request "query_id=1" "ref-1" "alice")]
                         {[ "Authorization" := "Bearer A1" ]} (PStr "R1") 0) =
    default PNone (t !! "refresh").
Proof.
  apply (register_all_or_nothing
           (mock (answering auth_url (json_reply 200 (token_body "A1" "R1"))))
           fresh "ref-1" "alice" (Ret true)).
  vm_compute. reflexivity.
Defined.

(** X12: login and refresh compose.  After a login that was granted the
    tokens access and refresh, refresh sends that refresh token, and when
    it is answered with a new access token the header Authorization holds
    the new bearer in place of the old one, the other headers are those
    from before the login, and the stored refresh token is the new one. *)
Theorem login_then_refresh (E : env) (w : world) access refresh_tok :
  granted E w access refresh_tok ->
  exists w1,
    login E w = (Ret true, w1) /\
    (forall o w2, refresh E w1 = (o, w2) ->
                  events w2 = Sent (refresh_request refresh_tok) :: events w1) /\
    (forall r d access2,
       serve E (requests_of (events w1)) (refresh_request refresh_tok) = Resp r ->
       json r = Some (PDict d) ->
       d !! "access" = Some (PStr access2) ->
       exists w2,
         refresh E w1 = (Ret tt, w2) /\
         headers w2 = <["Authorization" := "Bearer " ++ access2]> (headers w) /\
         refresh_token w2 = default PNone (d !! "refresh")).
Proof.
  intros G.
  destruct (login_cases E w) as [(a & rf & evs & G' & H)|[Hno _]];
    [|destruct (Hno access refresh_tok G)].
  destruct (granted_functional E w access refresh_tok a rf G G') as [<- <-].
  eexists. split; [exact H|]. split.
  - unfold refresh. unfold_monad. cbn [events refresh_token].
    fold (refresh_request refresh_tok).
    intros o w2. repeat case_inner; intros [= <- <-]; reflexivity.
  - intros r d access2 Hs Hj Ha.
    unfold refresh. unfold_monad. cbn [events refresh_token headers draws] in *.
    fold (refresh_request refresh_tok). rewrite Hs, Hj. cbn [py_get].
    rewrite Ha. simpl. eexists. split; [reflexivity|]. simpl.
    split; [apply insert_insert_eq|reflexivity].
Qed.

Lemma login_then_refresh_witness :
  exists w1,
    login (mock (answering auth_url (json_reply 200 (token_body "A1" "R1")))) logged_in
    = (Ret true, w1) /\
    (forall o w2,
       refresh (mock (answering auth_url (json_reply 200 (token_body "A1" "R1")))) w1
       = (o, w2) ->
       events w2 = Sent (refresh_request (PStr "R1")) :: events w1) /\
    (forall r d access2,
       serve (mock (answering auth_url (json_reply 200 (token_body "A1" "R1"))))
         (requests_of (events w1)) (refresh_request (PStr "R1")) = Resp r ->
       json r = Some (PDict d) ->
       d !! "access" = Some (PStr access2) ->
       exists w2,
         refresh (mock (answering auth_url (json_reply 200 (token_body "A1" "R1")))) w1
         = (Ret tt, w2) /\
         headers w2 = <["Authorization" := "Bearer " ++ access2]> (headers logged_in) /\
         refresh_token w2 = default PNone (d !! "refresh")).
Proof.
  apply (login_then_refresh
           (mock (answering auth_url (json_reply 200 (token_body "A1" "R1"))))
           logged_in "A1" (PStr "R1")).
  exists "query_id=1", (Response 200 "" (Some (token_body "A1" "R1"))),
    {[ "token" := PDict (<[ "access" := PStr "A1" ]> {[ "refresh" := PStr "R1" ]}) ]},
    (<[ "access" := PStr "A1" ]> {[ "refresh" := PStr "R1" ]}).
  repeat split; reflexivity.
Defined.

(** ** Starting a game *)

(** X13: start_game sends one request.  From an object body it returns the
    value of gameId when that key is there, also beside a message, the
    message when only that is there, and None when neither is; from a body
    that is not an object it never returns anything but None. *)
Theorem start_game_answer (E : env) (w : world) r :
  serve E (requests_of (events w)) start_request = Resp r ->
  (forall d,
     json r = Some (PDict d) ->
     start_game E w =
     (Ret (match d !! "gameId" with
           | Some g => g
           | None => default PNone (d !! "message")
           end),
      add_event (Sent start_request) w)) /\
  (forall v g w',
     json r = Some v ->
     (forall d, v <> PDict d) ->
     start_game E w = (Ret g, w') ->
     g = PNone).
Proof.
  intros Hs. split.
  - intros d Hj. unfold start_game. unfold_monad. fold start_request.
    rewrite Hs, Hj. cbn [py_in].
    destruct (d !! "gameId") as [g|] eqn:Hg; simpl.
    + rewrite Hg. reflexivity.
    + destruct (d !! "message") as [m|]; reflexivity.
  - intros v g w' Hj Hv. unfold start_game. unfold_monad. fold start_request.
    rewrite Hs, Hj.
    destruct v as [ | | | | |d]; try destruct (Hv d eq_refl); simpl;
      repeat case_inner; intros [= <- <-]; reflexivity.
Qed.

Lemma start_game_answer_witness :
  start_game
    (mock (answering game_play_url
             (json_reply 200 (PDict (<[ "gameId" := PStr "g-7" ]>
                                     {[ "message" := PStr "welcome" ]})))))
    fresh =
  (Ret (PStr "g-7"), add_event (Sent start_request) fresh).
Proof.
  destruct (start_game_answer
              (mock (answering game_play_url
                       (json_reply 200 (PDict (<[ "gameId" := PStr "g-7" ]>
                                               {[ "message" := PStr "welcome" ]})))))
              fresh
              (Response 200 ""
                 (Some (PDict (<[ "gameId" := PStr "g-7" ]>
                               {[ "message" := PStr "welcome" ]}))))
              eq_refl) as [H _].
  etransitivity; [apply H; reflexivity|]. vm_compute. reflexivity.
Defined.

(** ** The requests of the game loop *)

(** X14: in every run of play_game, however it goes, each iteration sends
    exactly one start (there are as many starts as iterations ended by a
    finished round, an error or a stop, and as many as the fuel while the
    run is still going); there are at most two claims for each start and
    no finished round without a claim; nothing else is sent, and the
    headers and the refresh token are left alone. *)
Theorem play_game_request_budget (E : env) (fuel : nat) :
  forall (n : Z) (w : world),
    exists r w' new,
      events w' = (new ++ events w)%list /\
      headers w' = headers w /\ refresh_token w' = refresh_token w /\
      count is_start new =
        (count is_finish new + count is_error new + count is_break new)%nat /\
      (count is_claim new <= 2 * count is_start new)%nat /\
      (count is_finish new <= count is_claim new)%nat /\
      length (requests_of new) = (count is_start new + count is_claim new)%nat /\
      ((play_game E fuel n w = Running r w' /\ r <> 0 /\
        count is_start new = fuel /\ count is_break new = 0%nat) \/
       (play_game E fuel n w = Done (Ret r) w' /\
        (count is_start new <= fuel)%nat /\
        ((r = 0 /\ count is_break new = 0%nat) \/
         (r <> 0 /\ count is_break new = 1%nat)))).
Proof.
  intros n w.
  destruct (play_game_iterations E fuel n w)
    as (r & w' & new & H1 & H2 & H3 & _ & H4 & H5 & H6 & H7 & H8).
  exists r, w', new. repeat split; auto.
Qed.

(** ** Leaving the loop, or not *)

Lemma claim_game_same_text (E : env) (g : pyval) (w : world) txt :
  (forall h req, url req = game_claim_url ->
                 exists r, serve E h req = Resp r /\ text r = txt) ->
  points_range E ->
  exists p new,
    claim_game E g w =
    (Ret (if String.eqb txt "OK" then PBool true else PStr txt, p),
     World (new ++ events w) (headers w) (refresh_token w) (S (draws w))) /\
    count is_finish new = 0%nat /\ count is_start new = 0%nat /\
    (1 <= count is_claim new <= 2)%nat.
Proof.
  intros Hsame Hrange. unfold points_range in Hrange.
  unfold claim_game, randint. unfold_monad.
  destruct (POINTS E) as [lo hi]. simpl in Hrange.
  destruct (hi <? lo) eqn:Hlt; [apply Z.ltb_lt in Hlt; lia|].
  simpl.
  set (p := lo + draw E (draws w) mod (hi - lo + 1)).
  set (req := Request POST game_claim_url _).
  destruct (Hsame (requests_of (events w)) req eq_refl) as (r1 & H1 & T1).
  rewrite H1.
  destruct (negb (status r1 =? 200)); simpl.
  - destruct (Hsame (req :: requests_of (events w)) req eq_refl) as (r2 & H2 & T2).
    rewrite H2, T2.
    exists p, [Sent req; Slept (Seconds 1); Sent req].
    repeat split; auto; subst req; unfold count; simpl; lia.
  - rewrite T1. exists p, [Sent req].
    repeat split; auto; subst req; unfold count; simpl; lia.
Qed.

(** X15: when the start gives a game identifier and the claim is answered
    with another text than "OK", the same at both attempts, play_game
    leaves the loop in that iteration: it logs the text with the passes
    left, logs no finished round, and the counter keeps its value. *)
Theorem unaccepted_claim_ends_the_loop
  (E : env) (fuel : nat) (n : Z) (w : world) r d s txt :
  n <> 0 ->
  points_range E ->
  serve E (requests_of (events w)) start_request = Resp r ->
  json r = Some (PDict d) ->
  d !! "gameId" = Some (PStr s) -> s <> "" -> s <> refusal ->
  (forall h req, url req = game_claim_url ->
                 exists r', serve E h req = Resp r' /\ text r' = txt) ->
  txt <> "OK" ->
  exists new,
    play_game E (S fuel) n w =
    Done (Ret n)
         (World (Logged (CouldntPlayGame (PStr txt) n) :: new ++ events w)
                (headers w) (refresh_token w) (S (draws w))) /\
    count is_start new = 1%nat /\ count is_finish new = 0%nat /\
    (1 <= count is_claim new <= 2)%nat.
Proof.
  intros Hn Hrange Hs Hj Hg Hne Href Hsame Htxt.
  cbn [play_game]. destruct (n =? 0) eqn:Hz; [apply Z.eqb_eq in Hz; lia|].
  unfold play_pass, play_round.
  cbv beta iota delta [try_except mbind mret M_bind M_ret bind ret sleep log].
  rewrite (start_game_id E (add_event (Slept PlayDelay) w) r d (PStr s)); auto.
  pose proof (accepted_id_valid s Hne Href) as Hacc. unfold accepted_id in Hacc.
  apply andb_true_iff in Hacc as [Ht Hq]. rewrite Ht.
  apply negb_true_iff in Hq. rewrite Hq. cbv beta iota delta [negb orb].
  match goal with
  | |- context [claim_game E ?g ?w0] =>
      destruct (claim_game_same_text E g w0 txt Hsame Hrange)
        as (p & new & Hc & Hf & Hst & Hcl)
  end.
  rewrite Hc. apply String.eqb_neq in Htxt. rewrite Htxt. simpl.
  exists (new ++ [Slept RoundDelay; Sent start_request; Slept PlayDelay])%list.
  repeat split; simpl;
    rewrite ?count_app, ?Hst, ?Hf, <- ?app_assoc; unfold count in *; simpl; auto; lia.
Qed.

Lemma unaccepted_claim_ends_the_loop_witness :
  exists new,
    play_game (mock forgetful_service) 1 3 fresh =
    Done (Ret 3)
         (World (Logged (CouldntPlayGame (PStr "game session not found") 3) ::
                 new ++ events fresh)
                (headers fresh) (refresh_token fresh) (S (draws fresh))) /\
    count is_start new = 1%nat /\ count is_finish new = 0%nat /\
    (1 <= count is_claim new <= 2)%nat.
Proof.
  apply (unaccepted_claim_ends_the_loop (mock forgetful_service) 0 3 fresh
           (Response 200 "" (Some (PDict {[ "gameId" := PStr "g-1" ]})))
           {[ "gameId" := PStr "g-1" ]} "g-1" "game session not found").
  - lia.
  - apply mock_points_range.
  - reflexivity.
  - reflexivity.
  - reflexivity.
  - discriminate.
  - discriminate.
  - intros h req Hurl. simpl. unfold forgetful_service. rewrite Hurl. simpl.
    exists (Response 200 "game session not found" None). auto.
  - discriminate.
Defined.

(** While every round raises, the loop goes on with the same counter. *)
Lemma play_game_goes_on (E : env) (n : Z) :
  n <> 0 ->
  (forall w, exists e w1,
       play_round E n w = (Raise e, w1) /\
       exists new,
         w1 = World (new ++ events w) (headers w) (refresh_token w) (draws w) /\
         count is_start new = 1%nat /\ count is_claim new = 0%nat /\
         count is_error new = 0%nat) ->
  forall (fuel : nat) (w : world),
    exists new,
      play_game E fuel n w =
      Running n (World (new ++ events w) (headers w) (refresh_token w) (draws w)) /\
      count is_start new = fuel /\ count is_claim new = 0%nat /\
      count is_error new = fuel.
Proof.
  intros Hn Hraise.
  induction fuel as [|fuel IH]; intros w.
  - exists []. simpl. destruct (n =? 0) eqn:Hz; [apply Z.eqb_eq in Hz; lia|].
    destruct w; auto.
  - cbn [play_game]. destruct (n =? 0) eqn:Hz; [apply Z.eqb_eq in Hz; lia|].
    destruct (Hraise w) as (e & w1 & Hr & new1 & -> & S1 & C1 & E1).
    unfold play_pass. cbv beta iota delta [try_except]. rewrite Hr.
    cbv beta iota delta [mbind mret M_bind M_ret bind ret sleep log add_event].
    cbn [events headers refresh_token draws].
    destruct (IH (World (Slept ErrorPlayDelay :: Logged (PlayGameError e) ::
                         new1 ++ events w)
                        (headers w) (refresh_token w) (draws w)))
      as (new & Hrun & S2 & C2 & E2).
    cbn [events headers refresh_token draws] in Hrun. rewrite Hrun.
    exists (new ++ Slept ErrorPlayDelay :: Logged (PlayGameError e) :: new1)%list.
    repeat split; rewrite ?count_app, ?count_cons; simpl; try lia.
    rewrite <- app_assoc. reflexivity.
Qed.

(** X16: while the transport delivers nothing, play_game with passes left
    never leaves the loop: after any number of iterations it is still
    running with the same counter, having sent one start and logged one
    error in each, and no claim. *)
Theorem play_game_unreachable_never_ends (E : env) (n : Z) (w : world) :
  n <> 0 ->
  (forall h req, serve E h req = Refused) ->
  forall fuel : nat,
    exists new,
      play_game E fuel n w =
      Running n (World (new ++ events w) (headers w) (refresh_token w) (draws w)) /\
      count is_start new = fuel /\ count is_claim new = 0%nat /\
      count is_error new = fuel.
Proof.
  intros Hn Hdown fuel. apply play_game_goes_on; auto.
  intros w0. unfold play_round, start_game. unfold_monad.
  rewrite Hdown. eexists _, _. split; [reflexivity|].
  exists [Sent start_request; Slept PlayDelay]. auto.
Qed.

Lemma play_game_unreachable_never_ends_witness :
  exists new,
    play_game (mock unreachable) 5 2 fresh =
    Running 2 (World (new ++ events fresh) (headers fresh) (refresh_token fresh)
                     (draws fresh)) /\
    count is_start new = 5%nat /\ count is_claim new = 0%nat /\
    count is_error new = 5%nat.
Proof.
  apply (play_game_unreachable_never_ends (mock unreachable) 2 fresh).
  - lia.
  - intros h req. reflexivity.
Defined.

(** X17: with a config.POINTS whose upper end is below the lower, no game
    is ever claimed: every round starts a game, fails at the drawing of the
    points, and is taken up again with the same counter, for ever. *)
Theorem empty_points_range_never_claims (E : env) (n : Z) (w : world) :
  n <> 0 ->
  snd (POINTS E) < fst (POINTS E) ->
  (forall h req, url req = game_play_url -> valid_start_reply (serve E h req)) ->
  forall fuel : nat,
    exists new,
      play_game E fuel n w =
      Running n (World (new ++ events w) (headers w) (refresh_token w) (draws w)) /\
      count is_start new = fuel /\ count is_claim new = 0%nat /\
      count is_error new = fuel.
Proof.
  intros Hn Hempty Hstart fuel. apply play_game_goes_on; auto.
  intros w0.
  destruct (Hstart (requests_of (events w0)) start_request eq_refl)
    as (r & d & s & Hs & Hj & Hg & Hne & Href).
  unfold play_round.
  cbv beta iota delta [mbind mret M_bind M_ret bind ret sleep log].
  rewrite (start_game_id E (add_event (Slept PlayDelay) w0) r d (PStr s)); auto.
  pose proof (accepted_id_valid s Hne Href) as Hacc. unfold accepted_id in Hacc.
  apply andb_true_iff in Hacc as [Ht Hq]. rewrite Ht.
  apply negb_true_iff in Hq. rewrite Hq. cbv beta iota delta [negb orb].
  unfold claim_game, randint. unfold_monad.
  destruct (POINTS E) as [lo hi]. simpl in Hempty.
  apply Z.ltb_lt in Hempty. rewrite Hempty.
  eexists _, _. split; [reflexivity|].
  exists [Slept RoundDelay; Sent start_request; Slept PlayDelay]. auto.
Qed.

Lemma empty_points_range_never_claims_witness :
  exists new,
    play_game misconfigured 4 1 fresh =
    Running 1 (World (new ++ events fresh) (headers fresh) (refresh_token fresh)
                     (draws fresh)) /\
    count is_start new = 4%nat /\ count is_claim new = 0%nat /\
    count is_error new = 4%nat.
Proof.
  apply (empty_points_range_never_claims misconfigured 1 fresh).
  - lia.
  - simpl. lia.
  - intros h req Hurl. apply (proj1 winning_service_always_wins h req Hurl).
Defined.

(** ** Seconds, on both sides of zero *)

Lemma truediv_pos_ms (t : Z) :
  0 < t < ms_bound ->
  exists m e,
    truediv_pos t 1000 = Ret (Float m e) /\ e < 0 /\ 0 <= m /\
    m / 2 ^ (- e) = t / 1000.
Proof.
  intros [Hpos Hlt]. unfold truediv_pos.
  pose proof (ulp_exponent_ms t (conj Hpos Hlt)) as [He1 He2].
  set (e := ulp_exponent t 1000) in *.
  destruct (0 <=? e) eqn:Hle; [apply Z.leb_le in Hle; lia|].
  cbn [andb].
  rewrite (Z.max_l 0 e) by lia. rewrite (Z.max_r 0 (- e)) by lia.
  rewrite Z.pow_0_r, Z.mul_1_r.
  set (P := 2 ^ (- e)).
  assert (512 <= P) as HP.
  { change 512 with (2 ^ 9). apply Z.pow_le_mono_r; lia. }
  pose proof (round_half_even_near (t * P) 1000 ltac:(lia) ltac:(nia)) as Hm.
  set (m := round_half_even (t * P) 1000) in *.
  pose proof (Z.div_mod (t * P) 1000 ltac:(lia)) as Hdm.
  pose proof (Z.mod_pos_bound (t * P) 1000 ltac:(lia)) as Hmb.
  pose proof (Z.div_mod t 1000 ltac:(lia)) as Hdt.
  pose proof (Z.mod_pos_bound t 1000 ltac:(lia)) as Hmt.
  set (k := t / 1000) in *. set (r0 := t mod 1000) in *.
  set (q := t * P / 1000) in *. set (r := (t * P) mod 1000) in *.
  assert (0 <= k) as Hk by (subst k; apply Z.div_pos; lia).
  assert (k * P <= m < (k + 1) * P) as Hbounds by nia.
  exists m, e. repeat split; try lia.
  symmetry. apply (Z.div_unique m P k (m - k * P)); lia.
Qed.

(** X18: for a millisecond timestamp t with |t| < 1000 * 2^44, int(t / 1000)
    is t / 1000 cut toward zero: the floor from zero up, and the ceiling
    below zero; no error of the float division shows. *)
Theorem int_div_1000_truncates (t : Z) :
  - ms_bound < t < ms_bound ->
  int_div_1000 (PInt t) = Ret (PInt (Z.quot t 1000)) /\
  (0 <= t -> Z.quot t 1000 = t / 1000) /\
  (t < 0 -> Z.quot t 1000 = - ((- t) / 1000)).
Proof.
  intros [Hlo Hhi].
  assert (Hneg : t < 0 -> Z.quot t 1000 = - ((- t) / 1000)).
  { intros Ht. rewrite <- (Z.opp_involutive t) at 1.
    rewrite Z.quot_opp_l by lia. rewrite Z.quot_div_nonneg by lia. reflexivity. }
  split; [|split; [intros Ht; apply Z.quot_div_nonneg; lia|exact Hneg]].
  destruct (Z_lt_le_dec t 0) as [Ht|Ht].
  - rewrite (Hneg Ht).
    unfold int_div_1000, truediv.
    destruct (Z.eqb t 0) eqn:Hz; [apply Z.eqb_eq in Hz; lia|].
    rewrite (Z.abs_neq t) by lia.
    destruct (truediv_pos_ms (- t) ltac:(lia)) as (m & e & Hdiv & He & Hm & Hq).
    rewrite Hdiv. unfold int_of_float. cbn [mant expo].
    destruct (0 <=? e) eqn:Hle; [apply Z.leb_le in Hle; lia|].
    rewrite (Z.sgn_neg t) by lia.
    replace (-1 * m) with (- m) by lia.
    assert (0 < 2 ^ (- e)) by (apply Z.pow_pos_nonneg; lia).
    rewrite Z.quot_opp_l by lia. rewrite Z.quot_div_nonneg by lia.
    rewrite Hq. reflexivity.
  - rewrite Z.quot_div_nonneg by lia. apply int_div_1000_floor. lia.
Qed.

Lemma int_div_1000_truncates_witness :
  int_div_1000 (PInt (-1500)) = Ret (PInt (Z.quot (-1500) 1000)) /\
  (0 <= -1500 -> Z.quot (-1500) 1000 = -1500 / 1000) /\
  (-1500 < 0 -> Z.quot (-1500) 1000 = - ((- -1500) / 1000)).
Proof.
  apply (int_div_1000_truncates (-1500)). rewrite ms_bound_value. lia.
Defined.

(** ** The balance, for every body that is an object *)











Lemma one_retry_at_most_witness :
  sent_once_or_twice
    (claim_request (PStr "g-1") (100 + 0 mod (200 - 100 + 1)))
    fresh (snd (claim_game (mock winning_service) (PStr "g-1") fresh)).
Proof.
  destruct (one_retry_at_most (mock winning_service) fresh) as [H _].
  destruct (H (PStr "g-1")) as [_ H2]. apply H2. simpl. lia.
Defined.
